(** * flutter-plus: the Dart data-class generator (command [dataClass])

    A shallow embedding of the four revisions of the generator found in the
    repository, and the properties of its specification checked against them.

    - [V_single]      src/src/commands/data.command.ts: one class, the whole
                      text scanned, directives read from the trailing comment;
    - [V_lines]       src/unnamed/part_000: every class of the text, fields
                      found line by line, directives read from the comment
                      lines above a field;
    - [V_multi]       src/unnamed/part_001 (first revision): every class of the
                      text, directives read from the trailing comment;
    - [V_constructor] src/unnamed/part_001 (second revision): one class,
                      nullability read from the constructor, copyWith and
                      equality emitted.

    Strings are sequences of 8-bit code units: the Latin-1 part of the UTF-16
    strings the program works on.  The regular expressions of the source use
    neither the [u] nor the [i] flag, so [\w], [[a-z]] and [[A-Z]] are ASCII
    classes, and in this range [\s] is { 9, 10, 11, 12, 13, 32, 160 } and the
    line terminators are { 10, 13 }.

    Contents:
    - [Char], [Str], [Replace]: characters and the string operations of the
      host language that the generator calls;
    - [Re]: the regular expressions of the source as backtracking matchers,
      one combinator for each construct they use;
    - [Gen]: naming styles, the patterns, the extraction of fields and the
      text emitted, revision by revision;
    - [Command]: the command [dataClass], its prompts, messages and edits;
    - [Naming], [Directive], [Occurrence], [Run], [Samples]: the notions the
      properties are stated with, and sample inputs;
    - [StrFacts], [ReFacts], [FieldFacts]: what the matchers return;
    - [ClassLocator], [CaseConverter], [Synthesizer], [Placeholder],
      [FieldKinds], [Nullability], [Orchestrator]: the properties of the
      specification, C1 to C10. *)

From Stdlib Require Import Strings.String Strings.Ascii.
From Stdlib Require Import Lists.List Bool.Bool Arith.Arith Arith.PeanoNat.
From Stdlib Require Import micromega.Lia.
Import ListNotations.

Local Open Scope string_scope.
Local Open Scope bool_scope.

(* ================================================================== *)
(** ** Characters *)
(* ================================================================== *)

Module Char.

Definition code (c : ascii) : nat := nat_of_ascii c.

Definition between (lo hi : nat) (c : ascii) : bool :=
  (lo <=? code c)%nat && (code c <=? hi)%nat.

(** [[a-z]], [[A-Z]], [[0-9]] *)
Definition is_lower (c : ascii) : bool := between 97 122 c.
Definition is_upper (c : ascii) : bool := between 65 90 c.
Definition is_digit (c : ascii) : bool := between 48 57 c.

(** [\w] is [[A-Za-z0-9_]] *)
Definition is_word (c : ascii) : bool :=
  is_lower c || is_upper c || is_digit c || (code c =? 95)%nat.

(** [\s]: TAB, LF, VT, FF, CR, SP and NBSP *)
Definition is_space (c : ascii) : bool :=
  between 9 13 c || (code c =? 32)%nat || (code c =? 160)%nat.

(** the line terminators, which [.] does not match *)
Definition is_line_terminator (c : ascii) : bool :=
  (code c =? 10)%nat || (code c =? 13)%nat.

(** [.] without the [s] flag *)
Definition is_dot (c : ascii) : bool := negb (is_line_terminator c).

(** [[\s\S]] *)
Definition is_any (c : ascii) : bool := true.

(** Case mapping of one code unit.  Exact on ASCII and on the Latin-1 letters
    whose image stays below 256; the upper-case forms of 181, 223 and 255 lie
    outside the range (or are two units long) and those three are left as they
    are.  The converters below are applied to names matched by [\w+] only. *)
Definition is_latin_upper (c : ascii) : bool :=
  between 192 222 c && negb (code c =? 215)%nat.
Definition is_latin_lower (c : ascii) : bool :=
  between 224 254 c && negb (code c =? 247)%nat.

Definition to_lower (c : ascii) : ascii :=
  if is_upper c || is_latin_upper c then ascii_of_nat (code c + 32) else c.
Definition to_upper (c : ascii) : ascii :=
  if is_lower c || is_latin_lower c then ascii_of_nat (code c - 32) else c.

Definition underscore : ascii := "_"%char.
Definition hyphen : ascii := "-"%char.
Definition question : ascii := "?"%char.
Definition dollar : ascii := "$"%char.
Definition lf : ascii := ascii_of_nat 10.
Definition backspace : ascii := ascii_of_nat 8.

End Char.

(* ================================================================== *)
(** ** The string operations of the host language *)
(* ================================================================== *)

Module Str.

Definition nl : string := String Char.lf EmptyString.

Definition is_empty (s : string) : bool :=
  match s with EmptyString => true | _ => false end.

Fixpoint map (f : ascii -> ascii) (s : string) : string :=
  match s with
  | EmptyString => EmptyString
  | String c r => String (f c) (map f r)
  end.

Fixpoint forallb (p : ascii -> bool) (s : string) : bool :=
  match s with
  | EmptyString => true
  | String c r => p c && forallb p r
  end.

Fixpoint existsb (p : ascii -> bool) (s : string) : bool :=
  match s with
  | EmptyString => false
  | String c r => p c || existsb p r
  end.

(** [toLowerCase()] and [toUpperCase()] *)
Definition toLowerCase (s : string) : string := map Char.to_lower s.
Definition toUpperCase (s : string) : string := map Char.to_upper s.

(** The longest prefix of [s] whose characters satisfy [p], and what follows
    it: the greedy reading of [p*]. *)
Fixpoint span (p : ascii -> bool) (s : string) : string * string :=
  match s with
  | EmptyString => (EmptyString, EmptyString)
  | String c r =>
      if p c then let (a, b) := span p r in (String c a, b)
      else (EmptyString, s)
  end.

Definition dropWhile (p : ascii -> bool) (s : string) : string := snd (span p s).
Definition takeWhile (p : ascii -> bool) (s : string) : string := fst (span p s).

(** [rev] on strings, used by [trimEnd] and [endsWith] *)
Fixpoint rev_append (s acc : string) : string :=
  match s with
  | EmptyString => acc
  | String c r => rev_append r (String c acc)
  end.
Definition rev (s : string) : string := rev_append s EmptyString.

(** [trim()], [trimStart()], [trimEnd()] *)
Definition trimStart (s : string) : string := dropWhile Char.is_space s.
Definition trimEnd (s : string) : string := rev (dropWhile Char.is_space (rev s)).
Definition trim (s : string) : string := trimEnd (trimStart s).

(** [s.startsWith(p)]: the rest of [s] after [p], when [p] is a prefix. *)
Fixpoint strip_prefix (p s : string) : option string :=
  match p with
  | EmptyString => Some s
  | String a p' =>
      match s with
      | EmptyString => None
      | String b s' => if Ascii.eqb a b then strip_prefix p' s' else None
      end
  end.

Definition startsWith (s p : string) : bool :=
  match strip_prefix p s with Some _ => true | None => false end.

Definition endsWith (s p : string) : bool := startsWith (rev s) (rev p).

(** [s.includes(p)] *)
Fixpoint includes (s p : string) : bool :=
  startsWith s p ||
  match s with
  | EmptyString => false
  | String _ r => includes r p
  end.

(** [s.split("\n")] *)
Fixpoint split_lines_aux (cur : string) (s : string) : list string :=
  match s with
  | EmptyString => [rev cur]
  | String c r =>
      if Ascii.eqb c Char.lf then rev cur :: split_lines_aux EmptyString r
      else split_lines_aux (String c cur) r
  end.
Definition split_lines (s : string) : list string := split_lines_aux EmptyString s.

(** [l.join(sep)] *)
Fixpoint join (sep : string) (l : list string) : string :=
  match l with
  | [] => EmptyString
  | [x] => x
  | x :: r => x ++ sep ++ join sep r
  end.

(** A string is truthy when it is not empty. *)
Definition truthy (s : string) : bool := negb (is_empty s).

End Str.

(* ================================================================== *)
(** ** [String.prototype.replace] with a string pattern *)
(* ================================================================== *)

Module Replace.

(** The first occurrence of [pat] in [s]: the text before it and after it. *)
Fixpoint find_first (pat s : string) : option (string * string) :=
  match Str.strip_prefix pat s with
  | Some rest => Some (EmptyString, rest)
  | None =>
      match s with
      | EmptyString => None
      | String c r =>
          match find_first pat r with
          | Some (a, b) => Some (String c a, b)
          | None => None
          end
      end
  end.

(** GetSubstitution for a pattern without capture groups: in the replacement
    text [$$] stands for a dollar, [$&] for the matched text, [$`] for the
    text before the match and [$'] for the text after it; any other dollar
    stands for itself. *)
Fixpoint expand (matched before after repl : string) : string :=
  match repl with
  | EmptyString => EmptyString
  | String c r =>
      if Ascii.eqb c Char.dollar then
        match r with
        | String d r' =>
            if Ascii.eqb d "$"%char then String d (expand matched before after r')
            else if Ascii.eqb d "&"%char then matched ++ expand matched before after r'
            else if Ascii.eqb d "`"%char then before ++ expand matched before after r'
            else if Ascii.eqb d "'"%char then after ++ expand matched before after r'
            else String c (expand matched before after r)
        | EmptyString => String c EmptyString
        end
      else String c (expand matched before after r)
  end.

(** [s.replace(pat, repl)]: only the first occurrence of [pat] is replaced. *)
Definition replace (s pat repl : string) : string :=
  match find_first pat s with
  | Some (a, b) => a ++ expand pat a b repl ++ b
  | None => s
  end.

End Replace.

(* ================================================================== *)
(** ** Regular expressions, as backtracking matchers *)
(* ================================================================== *)

(** Each combinator matches one piece of a pattern at the head of a text and
    hands the text it matched and the text that remains to a continuation,
    the rest of the pattern; when the continuation fails the combinator tries
    its next alternative, in the order the host's matcher does. *)

Module Re.

Section Combinators.
Context {A : Type}.

Definition K : Type := string -> string -> option A.

(** a literal text *)
Definition lit (l : string) (k : K) (s : string) : option A :=
  match Str.strip_prefix l s with
  | Some r => k l r
  | None => None
  end.

(** [p*], greedy *)
Fixpoint star (p : ascii -> bool) (k : K) (s : string) : option A :=
  match s with
  | String c r =>
      if p c then
        match star p (fun m rest => k (String c m) rest) r with
        | Some x => Some x
        | None => k EmptyString s
        end
      else k EmptyString s
  | EmptyString => k EmptyString s
  end.

(** [p+], greedy *)
Definition plus (p : ascii -> bool) (k : K) (s : string) : option A :=
  match s with
  | String c r =>
      if p c then star p (fun m rest => k (String c m) rest) r else None
  | EmptyString => None
  end.

(** [p*?], lazy *)
Fixpoint lazy_star (p : ascii -> bool) (k : K) (s : string) : option A :=
  match k EmptyString s with
  | Some x => Some x
  | None =>
      match s with
      | String c r =>
          if p c then lazy_star p (fun m rest => k (String c m) rest) r
          else None
      | EmptyString => None
      end
  end.

(** one character of the class [p] *)
Definition one (p : ascii -> bool) (k : K) (s : string) : option A :=
  match s with
  | String c r => if p c then k (String c EmptyString) r else None
  | EmptyString => None
  end.

(** [(r)?], greedy: [r] is tried first, then the empty text *)
Definition maybe (r : K -> string -> option A) (k : K) (s : string)
  : option A :=
  match r k s with
  | Some x => Some x
  | None => k EmptyString s
  end.

(** [c?], greedy *)
Definition opt (c : ascii) (k : K) (s : string) : option A :=
  match s with
  | String d r =>
      if Ascii.eqb c d then
        match k (String c EmptyString) r with
        | Some x => Some x
        | None => k EmptyString s
        end
      else k EmptyString s
  | EmptyString => k EmptyString s
  end.

(** The first position of [s] at which [m] matches: [s.match(re)],
    [re.exec(s)] from index 0 and [re.test(s)]. *)
Fixpoint search_from (m : string -> option A) (i : nat) (s : string)
  : option (nat * A) :=
  match m s with
  | Some x => Some (i, x)
  | None =>
      match s with
      | EmptyString => None
      | String _ r => search_from m (S i) r
      end
  end.

Definition search (m : string -> option A) (s : string) : option (nat * A) :=
  search_from m 0 s.

End Combinators.

(** One match of a global scan: where it starts, how long it is, its groups. *)
Record Found (G : Type) := { index : nat; len : nat; groups : G }.
Arguments index {G} _.
Arguments len {G} _.
Arguments groups {G} _.

(** Every match of [m] in [s] from left to right, each search starting where
    the match before it ended ([matchAll], and [exec] in a loop, with the [g]
    flag).  [m] yields the groups and the text left after the match; [skip]
    counts the characters of the last match still to be passed over. *)
Fixpoint scan {G : Type} (m : string -> option (G * string)) (i skip : nat)
  (s : string) {struct s} : list (Found G) :=
  match skip with
  | S k =>
      match s with
      | EmptyString => []
      | String _ r => scan m (S i) k r
      end
  | O =>
      match m s with
      | Some (g, rest) =>
          let n := String.length s - String.length rest in
          {| index := i; len := n; groups := g |} ::
          match s with
          | EmptyString => []
          | String _ r => scan m (S i) (n - 1) r
          end
      | None =>
          match s with
          | EmptyString => []
          | String _ r => scan m (S i) 0 r
          end
      end
  end.

Definition matchAll {G : Type} (m : string -> option (G * string)) (s : string)
  : list (Found G) := scan m 0 0 s.

End Re.

(* ================================================================== *)
(** ** The generator *)
(* ================================================================== *)

Module Gen.

Import Str.

(** *** Naming styles (the items of the quick pick) *)

Inductive NamingStyle : Type :=
  | camelCase | snake_case | PascalCase | kebab_case | original.

(** [str.replace(/_./g, (s) => s.charAt(1).toUpperCase())] *)
Fixpoint toCamelCase (s : string) : string :=
  match s with
  | EmptyString => EmptyString
  | String c r =>
      if Ascii.eqb c Char.underscore then
        match r with
        | String d r' =>
            if Char.is_dot d then String (Char.to_upper d) (toCamelCase r')
            else String c (toCamelCase r)
        | EmptyString => String c EmptyString
        end
      else String c (toCamelCase r)
  end.

(** [str.replace(/([a-z])([A-Z])/g, "$1" + sep + "$2")] *)
Fixpoint separate (sep : ascii) (s : string) : string :=
  match s with
  | EmptyString => EmptyString
  | String a r =>
      match r with
      | String b r' =>
          if Char.is_lower a && Char.is_upper b
          then String a (String sep (String b (separate sep r')))
          else String a (separate sep r)
      | EmptyString => String a EmptyString
      end
  end.

Definition toSnakeCase (s : string) : string :=
  toLowerCase (separate Char.underscore s).
Definition toKebabCase (s : string) : string :=
  toLowerCase (separate Char.hyphen s).

(** [(s) => s.replace("_", "").toUpperCase()] *)
Definition pascalPiece (m : string) : string :=
  toUpperCase (Replace.replace m "_" "").

(** [str.replace(/(^\w|_\w)/g, ...)] past the first position, where only the
    alternative [_\w] can match *)
Fixpoint toPascalRest (s : string) : string :=
  match s with
  | EmptyString => EmptyString
  | String a r =>
      if Ascii.eqb a Char.underscore then
        match r with
        | String b r' =>
            if Char.is_word b
            then pascalPiece (String a (String b EmptyString)) ++ toPascalRest r'
            else String a (toPascalRest r)
        | EmptyString => String a EmptyString
        end
      else String a (toPascalRest r)
  end.

(** At the first position [^\w] is tried first, and it matches an underscore
    too. *)
Definition toPascalCase (s : string) : string :=
  match s with
  | EmptyString => EmptyString
  | String a r =>
      if Char.is_word a
      then pascalPiece (String a EmptyString) ++ toPascalRest r
      else toPascalRest s
  end.

Definition convertCase (style : NamingStyle) (str : string) : string :=
  match style with
  | camelCase => toCamelCase str
  | snake_case => toSnakeCase str
  | PascalCase => toPascalCase str
  | kebab_case => toKebabCase str
  | original => str
  end.

(** *** The patterns of the source *)

(** [/class\s+(\w+)/]: the class name *)
Definition re_className (s : string) : option string :=
  Re.lit "class" (fun _ =>
  Re.plus Char.is_space (fun _ =>
  Re.plus Char.is_word (fun name _ => Some name))) s.

(** [/class\s+(\w+)\s*{([\s\S]*?)}/g]: name and body, and the text left *)
Definition re_class (s : string) : option ((string * string) * string) :=
  Re.lit "class" (fun _ =>
  Re.plus Char.is_space (fun _ =>
  Re.plus Char.is_word (fun name =>
  Re.star Char.is_space (fun _ =>
  Re.lit "{" (fun _ =>
  Re.lazy_star Char.is_any (fun body =>
  Re.lit "}" (fun _ rest => Some ((name, body), rest)))))))) s.

(** [(\w+\??)\s+(\w+);], the common part of the two field patterns *)
Definition re_decl (s : string) : option ((string * string) * string) :=
  Re.plus Char.is_word (fun w =>
  Re.opt Char.question (fun q =>
  Re.plus Char.is_space (fun _ =>
  Re.plus Char.is_word (fun name =>
  Re.lit ";" (fun _ rest => Some ((w ++ q, name), rest)))))) s.

(** [/(\w+\??)\s+(\w+);/g] *)
Definition re_field : string -> option ((string * string) * string) := re_decl.

(** [/^final\s+(\w+\??)\s+(\w+);/], matched at the head of a line only *)
Definition re_final_field (s : string) : option ((string * string) * string) :=
  Re.lit "final" (fun _ =>
  Re.plus Char.is_space (fun _ => re_decl)) s.

(** [new RegExp(`${name};\\s*//\\s*(.+)`, "g")]; [name] was matched by [\w+]
    and so stands for itself in the pattern *)
Definition re_comment (name : string) (s : string) : option string :=
  Re.lit name (fun _ =>
  Re.lit ";" (fun _ =>
  Re.star Char.is_space (fun _ =>
  Re.lit "//" (fun _ =>
  Re.star Char.is_space (fun _ =>
  Re.plus Char.is_dot (fun g _ => Some g)))))) s.

(** The pattern  Parsing:\s* ( .* ) , \s* ( .* )  (blanks added between the
    tokens): two groups split at the last comma of the line *)
Definition re_parsing (s : string) : option (string * string) :=
  Re.lit "Parsing:" (fun _ =>
  Re.star Char.is_space (fun _ =>
  Re.star Char.is_dot (fun g1 =>
  Re.lit "," (fun _ =>
  Re.star Char.is_space (fun _ =>
  Re.star Char.is_dot (fun g2 _ => Some (g1, g2))))))) s.

(** The constructor pattern, built with [new RegExp] and the flag [s] from the
    template literal  \b ${className} \s* \( ( [^)]* ) \)  (blanks added).
    In a template literal [\b] is the backspace character U+0008 and [\s],
    [\(] and [\)] are the plain characters: the expression compiled is
    U+0008, the class name, any number of [s], then two nested groups around
    a run of characters other than the closing parenthesis; the first group
    is that whole run. *)
Definition re_constructor (className : string) (s : string) : option string :=
  Re.lit (String Char.backspace EmptyString) (fun _ =>
  Re.lit className (fun _ =>
  Re.star (Ascii.eqb "s"%char) (fun _ =>
  Re.star (fun c => negb (Ascii.eqb c ")"%char)) (fun g _ => Some g)))) s.

(** [new RegExp(`(required\s+)?this.${field.name}`)], for the same reason the
    expression  (requireds+)?this.NAME  where [.] is any character of a line *)
Definition re_this (name : string) (s : string) : option unit :=
  Re.maybe (fun k =>
    Re.lit "required" (fun _ => Re.plus (Ascii.eqb "s"%char) k)) (fun _ =>
  Re.lit "this" (fun _ =>
  Re.one Char.is_dot (fun _ =>
  Re.lit name (fun _ _ => Some tt)))) s.

(** *** Fields *)

Record CustomParsing : Type := {
  fromJson : option string;
  toJson : option string
}.

(** [{}]: neither expression is set *)
Definition noParsing : CustomParsing := {| fromJson := None; toJson := None |}.


Record Field : Type := {
  type : string;
  name : string;
  snakeName : string;
  nullable : bool;
  isEnum : bool;
  isClass : bool;
  customParsing : CustomParsing
}.

Definition dartBuiltInTypes : list string :=
  ["int"; "double"; "String"; "bool"; "num"; "List"; "Map"; "Set"; "dynamic"].

(** [dartBuiltInTypes.has(t)] *)
Definition has (set : list string) (t : string) : bool :=
  List.existsb (String.eqb t) set.

(** [type.replace("?", "")] *)
Definition cleanType (t : string) : string := Replace.replace t "?" "".

(** What a comment line says (the body of the loop over [commentLines]). *)
Definition readDirective (st : bool * CustomParsing) (line : string)
  : bool * CustomParsing :=
  let (isEnum, customParsing) := st in
  if startsWith line "Type: enum" then (true, customParsing)
  else if startsWith line "Parsing:" then
    match Re.search re_parsing line with
    | Some (_, (a, b)) =>
        (isEnum, {| fromJson := Some (trim a); toJson := Some (trim b) |})
    | None => (isEnum, customParsing)
    end
  else (isEnum, customParsing).

(** [determineFieldType(type, name, classCode)] of data.command.ts and of the
    first revision of part_001: the flags [isEnum] and [isClass] and the
    custom parsing of a field. *)
Definition determineFieldType (type name classCode : string)
  : bool * bool * CustomParsing :=
  let '(isEnum, customParsing) :=
    match Re.search (re_comment name) classCode with
    | Some (_, g) =>
        List.fold_left readDirective (List.map trim (split_lines g))
          (false, noParsing)
    | None => (false, noParsing)
    end in
  if has dartBuiltInTypes (cleanType type)
  then (false, false, customParsing)
  else (isEnum, negb isEnum, customParsing).

(** The fields of data.command.ts and of the first revision of part_001: one
    for each match of the field pattern in [code]. *)
Definition mkField (style : NamingStyle) (code : string)
  (m : Re.Found (string * string)) : Field :=
  let (type, name) := Re.groups m in
  let '(isEnum, isClass, customParsing) := determineFieldType type name code in
  {| type := type;
     name := name;
     snakeName := convertCase style name;
     nullable := endsWith type "?";
     isEnum := isEnum;
     isClass := isClass;
     customParsing := customParsing |}.

Definition fieldsOf (style : NamingStyle) (code : string) : list Field :=
  List.map (mkField style code) (Re.matchAll re_field code).

(** part_000: the comment lines just above a field, prefix removed, each
    followed by a line feed ([prev] lists the lines above, nearest first). *)
Definition isCommentLine (l : string) : bool := startsWith (trim l) "//".

Fixpoint takeComments (prev : list string) : list string :=
  match prev with
  | l :: r => if isCommentLine l then l :: takeComments r else []
  | [] => []
  end.

(** [lines[j].trim().replace(/^\/\//, "").trim()] *)
Definition uncomment (l : string) : string :=
  match strip_prefix "//" (trim l) with
  | Some r => trim r
  | None => trim (trim l)
  end.

Definition commentBlock (prev : list string) : string :=
  List.fold_left (fun block l => uncomment l ++ nl ++ block)
    (takeComments prev) EmptyString.

(** part_000: the field declared by one line, if any. *)
Definition lineField (style : NamingStyle) (prev : list string) (line : string)
  : option Field :=
  match re_final_field (trim line) with
  | Some ((type, name), _) =>
      let block := commentBlock prev in
      let enum := includes block "Type: enum" in
      let isClass := negb (has dartBuiltInTypes (cleanType type)) in
      let customParsing :=
        match Re.search re_parsing block with
        | Some (_, (a, b)) =>
            {| fromJson := Some (trim a); toJson := Some (trim b) |}
        | None => noParsing
        end in
      Some {| type := type;
              name := name;
              snakeName := convertCase style name;
              nullable := endsWith type "?";
              isEnum := enum;
              isClass := if enum then false else isClass;
              customParsing := customParsing |}
  | None => None
  end.

(** The loop over the lines of a class body. *)
Fixpoint scanLines (style : NamingStyle) (prev lines : list string)
  : list Field :=
  match lines with
  | [] => []
  | l :: r =>
      match lineField style prev l with
      | Some f => f :: scanLines style (l :: prev) r
      | None => scanLines style (l :: prev) r
      end
  end.

Definition fieldsOfLines (style : NamingStyle) (classBody : string)
  : list Field :=
  scanLines style [] (split_lines classBody).

(** *** The fields of the second revision of part_001 *)

(** No directives are read; the nullability read from the type is replaced
    by the reading of the constructor when [constructorParams] is a
    non-empty text. *)
Module Plain.

Record Field : Type := {
  type : string;
  name : string;
  snakeName : string;
  nullable : bool
}.

Definition mkField (style : NamingStyle) (m : Re.Found (string * string))
  : Field :=
  let (type, name) := Re.groups m in
  {| type := type;
     name := name;
     snakeName := convertCase style name;
     nullable := endsWith type "?" |}.

(** [constructorMatch?.[1]?.trim()] *)
Definition constructorParams (className code : string) : option string :=
  match Re.search (re_constructor className) code with
  | Some (_, g) => Some (trim g)
  | None => None
  end.

(** [{ ...field, nullable: b }] *)
Definition setNullable (b : bool) (f : Field) : Field :=
  {| type := type f; name := name f; snakeName := snakeName f;
     nullable := b |}.

(** [new RegExp(...).test(constructorParams)] *)
Definition mentionsThis (params fieldName : string) : bool :=
  match Re.search (re_this fieldName) params with
  | Some _ => true
  | None => false
  end.

Definition fieldsFromType (style : NamingStyle) (code : string) : list Field :=
  List.map (mkField style) (Re.matchAll re_field code).

Definition fieldsOf (style : NamingStyle) (className code : string)
  : list Field :=
  let fields := fieldsFromType style code in
  match constructorParams className code with
  | Some params =>
      if truthy params
      then List.map
             (fun f => setNullable (negb (mentionsThis params (name f))) f)
             fields
      else fields
  | None => fields
  end.

(** The class emitted by this revision. *)

Definition generateFieldDeclarations (fields : list Field) : string :=
  join nl (List.map (fun f => "  final " ++ type f ++ " " ++ name f ++ ";")
             fields).

Definition generateConstructor (dtoClassName : string) (fields : list Field)
  : string :=
  nl ++ "  const " ++ dtoClassName ++ "({" ++ nl
  ++ "    "
  ++ join (nl ++ "    ")
       (List.map (fun f => (if nullable f then "" else "required ")
                           ++ "this." ++ name f ++ ",") fields) ++ nl
  ++ "  });" ++ nl
  ++ "  ".

Definition generateFactoryMethods (dtoClassName : string)
  (fields : list Field) : string :=
  nl ++ "  factory " ++ dtoClassName ++ ".fromMap(Map<String, dynamic> map," ++ nl
  ++ "   ) => " ++ dtoClassName ++ "(" ++ nl
  ++ "    "
  ++ join ""
       (List.map (fun f => name f ++ ": map['" ++ snakeName f ++ "'] as "
                           ++ Replace.replace (type f) "?" ""
                           ++ (if nullable f then "?" else "") ++ ",") fields)
  ++ nl
  ++ "  );" ++ nl
  ++ nl
  ++ "  factory " ++ dtoClassName ++ ".fromJson(String source) =>" ++ nl
  ++ "      " ++ dtoClassName ++ ".fromMap(" ++ nl
  ++ "         json.decode(source) as Map<String, dynamic>," ++ nl
  ++ "      );" ++ nl
  ++ "   ".

Definition generateCopyWith (dtoClassName : string) (fields : list Field)
  : string :=
  dtoClassName ++ " copyWith({" ++ nl
  ++ "    "
  ++ join (nl ++ "    ")
       (List.map (fun f => (if endsWith (type f) "?" then type f
                            else type f ++ "?") ++ " " ++ name f ++ ",")
          fields) ++ nl
  ++ "  }) => " ++ dtoClassName ++ "(" ++ nl
  ++ "    "
  ++ join (nl ++ "    ")
       (List.map (fun f => name f ++ ": " ++ name f ++ " ?? this." ++ name f
                           ++ ",") fields) ++ nl
  ++ "  );".

Definition generateToString (dtoClassName : string) (fields : list Field)
  : string :=
  "@override" ++ nl
  ++ "  String toString() => '" ++ dtoClassName ++ "("
  ++ join ", " (List.map (fun f => name f ++ ": $" ++ name f) fields)
  ++ ")';" ++ nl.

Definition generateToMapAndJson (fields : list Field) : string :=
  nl ++ "  Map<String, dynamic> toMap() => {" ++ nl
  ++ "    "
  ++ join (nl ++ "    ")
       (List.map (fun f => "  '" ++ snakeName f ++ "': " ++ name f ++ ",")
          fields) ++ nl
  ++ "  };" ++ nl
  ++ nl
  ++ "  String toJson() => json.encode(toMap(),);" ++ nl
  ++ "  ".

Definition generateEquality (hasEquatable : bool) (dtoClassName : string)
  (fields : list Field) : string :=
  if hasEquatable then
    nl ++ "  @override" ++ nl
    ++ "  List<Object?> get props => ["
    ++ join "," (List.map name fields) ++ "];" ++ nl
    ++ "  "
  else
    nl ++ "  @override" ++ nl
    ++ "  bool operator ==(Object other) =>" ++ nl
    ++ "      identical(this, other) ||" ++ nl
    ++ "      other is " ++ dtoClassName ++ " &&" ++ nl
    ++ "      "
    ++ join (nl ++ "      ")
         (List.map (fun f => "other." ++ name f ++ " == " ++ name f ++ " &&")
            fields)
    ++ " true;" ++ nl
    ++ nl
    ++ "  @override" ++ nl
    ++ "  int get hashCode => "
    ++ join (nl ++ "      ")
         (List.map (fun f => name f ++ ".hashCode ^") fields)
    ++ " 0;" ++ nl
    ++ "  ".

Definition classTemplate (hasEquatable : bool) (dtoClassName : string)
  (fields : list Field) : string :=
  nl ++ "import 'dart:convert';" ++ nl
  ++ (if hasEquatable then "import 'package:equatable/equatable.dart';" ++ nl
      else "")
  ++ "import 'package:meta/meta.dart';" ++ nl
  ++ nl
  ++ "@immutable" ++ nl
  ++ "class " ++ dtoClassName ++ " "
  ++ (if hasEquatable then "extends Equatable" else "") ++ " {" ++ nl
  ++ generateFieldDeclarations fields ++ nl
  ++ generateConstructor dtoClassName fields ++ nl
  ++ generateFactoryMethods dtoClassName fields ++ nl
  ++ generateCopyWith dtoClassName fields ++ nl
  ++ generateToMapAndJson fields ++ nl
  ++ generateToString dtoClassName fields ++ nl
  ++ generateEquality hasEquatable dtoClassName fields ++ nl
  ++ "}" ++ nl.

End Plain.

(** *** The text emitted for a field *)

(** [map['${snakeName}']] *)
Definition mapAccess (snakeName : string) : string :=
  "map['" ++ snakeName ++ "']".

(** The entry of a field in [fromMap], data.command.ts and first revision of
    part_001. *)
Definition fromMapEntry (f : Field) : string :=
  let byFlags :=
    if isEnum f then
      name f ++ ": " ++ name f ++ "FromString(" ++ mapAccess (snakeName f) ++ "),"
    else if isClass f then
      name f ++ ": " ++ mapAccess (snakeName f) ++ " != null ? " ++ type f
        ++ ".fromMap(" ++ mapAccess (snakeName f) ++ ") : null,"
    else name f ++ ": " ++ mapAccess (snakeName f) ++ "," in
  match fromJson (customParsing f) with
  | Some e =>
      if truthy e
      then name f ++ ": "
             ++ Replace.replace e "value" (mapAccess (snakeName f)) ++ ","
      else byFlags
  | None => byFlags
  end.

(** The same entry in part_000, where the nullability marker is removed from
    the type of a nested class. *)
Definition fromMapEntryLines (f : Field) : string :=
  let byFlags :=
    if isEnum f then
      name f ++ ": " ++ name f ++ "FromString(" ++ mapAccess (snakeName f) ++ "),"
    else if isClass f then
      let nonNullableType := cleanType (type f) in
      name f ++ ": " ++ mapAccess (snakeName f) ++ " != null ? "
        ++ nonNullableType ++ ".fromMap(" ++ mapAccess (snakeName f)
        ++ ") : null,"
    else name f ++ ": " ++ mapAccess (snakeName f) ++ "," in
  match fromJson (customParsing f) with
  | Some e =>
      if truthy e
      then name f ++ ": "
             ++ Replace.replace e "value" (mapAccess (snakeName f)) ++ ","
      else byFlags
  | None => byFlags
  end.

(** The entry of a field in [toMap], the same in the three revisions that
    read directives. *)
Definition toMapEntry (f : Field) : string :=
  let byFlags :=
    if isEnum f then
      "'" ++ snakeName f ++ "': " ++ name f ++ "ToString(" ++ name f ++ "),"
    else if isClass f then
      "'" ++ snakeName f ++ "': " ++ name f ++ "?.toMap(),"
    else "'" ++ snakeName f ++ "': " ++ name f ++ "," in
  match toJson (customParsing f) with
  | Some e =>
      if truthy e
      then "'" ++ snakeName f ++ "': "
             ++ Replace.replace e "value" (name f) ++ ","
      else byFlags
  | None => byFlags
  end.

Definition fieldDeclaration (f : Field) : string :=
  "final " ++ type f ++ " " ++ name f ++ ";".

Definition constructorParam (f : Field) : string :=
  (if nullable f then "" else "required ") ++ "this." ++ name f ++ ",".

Definition toStringItem (f : Field) : string :=
  name f ++ ": $" ++ name f.

Definition fromJsonFactory (dtoClassName : string) : string :=
  "  factory " ++ dtoClassName ++ ".fromJson(String source) =>" ++ nl
  ++ "      " ++ dtoClassName ++ ".fromMap(json.decode(source));".

Definition toStringMethod (dtoClassName : string) (fields : list Field)
  : string :=
  "@override" ++ nl
  ++ "  String toString() => '" ++ dtoClassName ++ "("
  ++ join ", " (List.map toStringItem fields) ++ ")';".

(** *** The class emitted by data.command.ts *)

Module Single.

Definition generateFieldDeclarations (fields : list Field) : string :=
  join (nl ++ "  ") (List.map fieldDeclaration fields).

Definition generateConstructor (dtoClassName : string) (fields : list Field)
  : string :=
  nl ++ "  const " ++ dtoClassName ++ "({" ++ nl
  ++ "    " ++ join (nl ++ "    ") (List.map constructorParam fields) ++ nl
  ++ "  });" ++ nl
  ++ "  ".

Definition generateFactoryMethods (dtoClassName : string)
  (fields : list Field) : string :=
  "factory " ++ dtoClassName ++ ".fromMap(Map<String, dynamic> map) => "
  ++ dtoClassName ++ "(" ++ nl
  ++ "    " ++ join (nl ++ "    ") (List.map fromMapEntry fields) ++ nl
  ++ "      );" ++ nl
  ++ nl
  ++ fromJsonFactory dtoClassName ++ nl
  ++ "  ".

Definition generateToMapAndJson (fields : list Field) : string :=
  "Map<String, dynamic> toMap() => {" ++ nl
  ++ "    " ++ join (nl ++ "    ") (List.map toMapEntry fields) ++ nl
  ++ "  };" ++ nl
  ++ nl
  ++ "  String toJson() => json.encode(toMap());".

Definition generateToString (dtoClassName : string) (fields : list Field)
  : string :=
  nl ++ "  " ++ toStringMethod dtoClassName fields.

Definition classTemplate (dtoClassName : string) (fields : list Field)
  : string :=
  nl ++ "import 'dart:convert';" ++ nl
  ++ "import 'package:meta/meta.dart';" ++ nl
  ++ nl
  ++ "@immutable" ++ nl
  ++ "class " ++ dtoClassName ++ " {" ++ nl
  ++ "  " ++ generateFieldDeclarations fields ++ nl
  ++ "  " ++ generateConstructor dtoClassName fields ++ nl
  ++ "  " ++ generateFactoryMethods dtoClassName fields ++ nl
  ++ "  " ++ generateToMapAndJson fields ++ nl
  ++ "  " ++ generateToString dtoClassName fields ++ nl
  ++ "}" ++ nl
  ++ nl.

End Single.

(** *** The class emitted by part_000 *)

Module Lines.

Definition generateFieldDeclarations (fields : list Field) : string :=
  join (nl ++ "  ") (List.map fieldDeclaration fields).

Definition generateConstructor (dtoClassName : string) (fields : list Field)
  : string :=
  "const " ++ dtoClassName ++ "({" ++ nl
  ++ "    " ++ join (nl ++ "    ") (List.map constructorParam fields) ++ nl
  ++ "  });".

Definition generateFactoryMethods (dtoClassName : string)
  (fields : list Field) : string :=
  "factory " ++ dtoClassName ++ ".fromMap(Map<String, dynamic> map) => "
  ++ dtoClassName ++ "(" ++ nl
  ++ "    " ++ join (nl ++ "    ") (List.map fromMapEntryLines fields) ++ nl
  ++ "  );" ++ nl
  ++ nl
  ++ fromJsonFactory dtoClassName.

Definition generateToMapAndJson (fields : list Field) : string :=
  "Map<String, dynamic> toMap() => {" ++ nl
  ++ "    " ++ join (nl ++ "    ") (List.map toMapEntry fields) ++ nl
  ++ "  };" ++ nl
  ++ nl
  ++ "  String toJson() => json.encode(toMap());".

Definition generateToString (dtoClassName : string) (fields : list Field)
  : string := toStringMethod dtoClassName fields.

Definition updatedClass (dtoClassName : string) (fields : list Field)
  : string :=
  "class " ++ dtoClassName ++ " {" ++ nl
  ++ "  " ++ generateFieldDeclarations fields ++ nl
  ++ "  " ++ nl
  ++ "  " ++ generateConstructor dtoClassName fields ++ nl
  ++ "  " ++ nl
  ++ "  " ++ generateFactoryMethods dtoClassName fields ++ nl
  ++ "  " ++ nl
  ++ "  " ++ generateToMapAndJson fields ++ nl
  ++ "  " ++ nl
  ++ "  " ++ generateToString dtoClassName fields ++ nl
  ++ "}".

End Lines.

(** *** The class emitted by the first revision of part_001 *)

Module Multi.

Definition generateFieldDeclarations (fields : list Field) : string :=
  join (nl ++ "  ") (List.map fieldDeclaration fields).

Definition generateConstructor (dtoClassName : string) (fields : list Field)
  : string :=
  nl ++ "  const " ++ dtoClassName ++ "({" ++ nl
  ++ "    " ++ join (nl ++ "    ") (List.map constructorParam fields) ++ nl
  ++ "  });" ++ nl
  ++ "  ".

Definition generateFactoryMethods (dtoClassName : string)
  (fields : list Field) : string :=
  nl ++ "  factory " ++ dtoClassName ++ ".fromMap(Map<String, dynamic> map) => "
  ++ dtoClassName ++ "(" ++ nl
  ++ "    " ++ join (nl ++ "    ") (List.map fromMapEntry fields) ++ nl
  ++ "  );" ++ nl
  ++ nl
  ++ fromJsonFactory dtoClassName ++ nl
  ++ "  ".

Definition generateToMapAndJson (fields : list Field) : string :=
  nl ++ "  Map<String, dynamic> toMap() => {" ++ nl
  ++ "    " ++ join (nl ++ "    ") (List.map toMapEntry fields) ++ nl
  ++ "  };" ++ nl
  ++ nl
  ++ "  String toJson() => json.encode(toMap());" ++ nl
  ++ "  ".

Definition generateToString (dtoClassName : string) (fields : list Field)
  : string :=
  nl ++ "  " ++ toStringMethod dtoClassName fields ++ nl
  ++ "  ".

Definition updatedClass (dtoClassName : string) (fields : list Field)
  : string :=
  nl ++ "class " ++ dtoClassName ++ " {" ++ nl
  ++ "  " ++ generateFieldDeclarations fields ++ nl
  ++ "  " ++ generateConstructor dtoClassName fields ++ nl
  ++ "  " ++ generateFactoryMethods dtoClassName fields ++ nl
  ++ "  " ++ generateToMapAndJson fields ++ nl
  ++ "  " ++ generateToString dtoClassName fields ++ nl
  ++ "}" ++ nl.

End Multi.

End Gen.

(* ================================================================== *)
(** ** The command *)
(* ================================================================== *)

(** The editor is the only thing the command reads and writes.  A run is
    determined by the text of the selection and of the document and by what
    the two prompts resolve to ([None] when a prompt is dismissed); it yields
    the error messages shown, in order, and the edits handed to
    [editor.edit]. *)

Module Command.

Import Str Gen.

Record Editor : Type := {
  selectionText : string;      (* editor.document.getText(selection) *)
  documentText : string        (* editor.document.getText() *)
}.

Record Host : Type := {
  activeTextEditor : option Editor;
  showInputBox : option string;
  showQuickPick : option NamingStyle
}.

Record Edit : Type := {
  range : nat * nat;           (* offsets of the start and of the end *)
  newText : string
}.

Record Outcome : Type := {
  errors : list string;        (* showErrorMessage, in order *)
  edits : list Edit
}.

Definition showErrorMessage (msg : string) : Outcome :=
  {| errors := [msg]; edits := [] |}.

(** [document.positionAt(offset)], as an offset kept inside the document *)
Definition positionAt (doc : string) (offset : nat) : nat :=
  Nat.min offset (String.length doc).

(** [editBuilder.replace(range, newText)] on a text *)
Definition replaceRange (doc : string) (e : Edit) : string :=
  let (a, b) := range e in
  substring 0 a doc ++ newText e ++ substring b (String.length doc - b) doc.

(** The document after [editor.edit]; the ranges all refer to the document
    before the edit, so the rightmost is replaced first. *)
Definition applyEdits (doc : string) (es : list Edit) : string :=
  List.fold_right (fun e d => replaceRange d e) doc es.

(** [getText(selection).trim() || getText()] *)
Definition classCodeOf (editor : Editor) : string :=
  let sel := trim (selectionText editor) in
  if truthy sel then sel else documentText editor.

(** [(await showInputBox(...))?.trim() ?? ""] *)
Definition suffixOf (answer : option string) : string :=
  match answer with
  | Some x => trim x
  | None => ""
  end.

Definition wholeDocument (editor : Editor) : nat * nat :=
  (positionAt (documentText editor) 0,
   positionAt (documentText editor) (String.length (documentText editor))).

(** *** data.command.ts *)

Definition generateSingle (editor : Editor) (suffix : string)
  (namingStyle : NamingStyle) : Outcome :=
  let classCode := classCodeOf editor in
  match Re.search re_className classCode with
  | None => showErrorMessage "No valid Dart class found."
  | Some (_, className) =>
      let dtoClassName := className ++ suffix in
      match fieldsOf namingStyle classCode with
      | [] => showErrorMessage "No valid fields found in class."
      | fields =>
          {| errors := [];
             edits := [ {| range := wholeDocument editor;
                           newText := trim (Single.classTemplate dtoClassName
                                              fields) |} ] |}
      end
  end.

(** *** The second revision of part_001 *)

Definition generateConstructorBased (editor : Editor) (suffix : string)
  (namingStyle : NamingStyle) : Outcome :=
  let classCode := classCodeOf editor in
  match Re.search re_className classCode with
  | None => showErrorMessage "No valid Dart class found."
  | Some (_, className) =>
      let dtoClassName := className ++ suffix in
      let hasEquatable := includes classCode "Equatable" in
      match Re.matchAll re_field classCode with
      | [] => showErrorMessage "No valid fields found in class."
      | _ =>
          let fields := Plain.fieldsOf namingStyle className classCode in
          {| errors := [];
             edits := [ {| range := wholeDocument editor;
                           newText := trim (Plain.classTemplate hasEquatable
                                              dtoClassName fields) |} ] |}
      end
  end.

(** *** part_000 and the first revision of part_001: every class of the text *)

(** The range of a match of the class pattern. *)
Definition matchRange (editor : Editor) (m : Re.Found (string * string))
  : nat * nat :=
  (positionAt (documentText editor) (Re.index m),
   positionAt (documentText editor) (Re.index m + Re.len m)).

Definition noFields (className : string) : string :=
  "No valid fields found in class " ++ className ++ ".".

(** One turn of the loop of part_000: an error message, or an edit. *)
Definition classStepLines (editor : Editor) (suffix : string)
  (namingStyle : NamingStyle) (m : Re.Found (string * string))
  : string + Edit :=
  let (className, classBody) := Re.groups m in
  let dtoClassName := className ++ suffix in
  match fieldsOfLines namingStyle classBody with
  | [] => inl (noFields className)
  | fields =>
      inr {| range := matchRange editor m;
             newText := trim (Lines.updatedClass dtoClassName fields) |}
  end.

(** One turn of the loop of the first revision of part_001. *)
Definition classStepMulti (editor : Editor) (suffix : string)
  (namingStyle : NamingStyle) (m : Re.Found (string * string))
  : string + Edit :=
  let (className, classBody) := Re.groups m in
  let dtoClassName := className ++ suffix in
  match fieldsOf namingStyle classBody with
  | [] => inl (noFields className)
  | fields =>
      inr {| range := matchRange editor m;
             newText := trim (Multi.updatedClass dtoClassName fields) |}
  end.

(** The loop [while ((classMatch = classRegex.exec(classCode)) !== null)]:
    the messages shown and the edits pushed, in the order of the classes. *)
Fixpoint runClasses (step : Re.Found (string * string) -> string + Edit)
  (ms : list (Re.Found (string * string))) : Outcome :=
  match ms with
  | [] => {| errors := []; edits := [] |}
  | m :: r =>
      let o := runClasses step r in
      match step m with
      | inl msg => {| errors := msg :: errors o; edits := edits o |}
      | inr e => {| errors := errors o; edits := e :: edits o |}
      end
  end.

(** After the loop: [if (edits.length === 0) return showErrorMessage(...)]. *)
Definition finish (o : Outcome) : Outcome :=
  match edits o with
  | [] => {| errors := errors o ++ ["No Dart class found to update."];
             edits := [] |}
  | _ => o
  end.

Definition generateAll (step : Re.Found (string * string) -> string + Edit)
  (editor : Editor) : Outcome :=
  finish (runClasses step (Re.matchAll re_class (classCodeOf editor))).

(** *** The four revisions *)

Inductive Revision : Type :=
  | V_single | V_lines | V_multi | V_constructor.

Definition generate (v : Revision) (editor : Editor) (suffix : string)
  (namingStyle : NamingStyle) : Outcome :=
  match v with
  | V_single => generateSingle editor suffix namingStyle
  | V_lines => generateAll (classStepLines editor suffix namingStyle) editor
  | V_multi => generateAll (classStepMulti editor suffix namingStyle) editor
  | V_constructor => generateConstructorBased editor suffix namingStyle
  end.

(** [dataClass]: the editor, the two prompts one after the other, then the
    generation. *)
Definition dataClass (v : Revision) (h : Host) : Outcome :=
  match activeTextEditor h with
  | None => showErrorMessage "No active editor found."
  | Some editor =>
      let suffix := suffixOf (showInputBox h) in
      match showQuickPick h with
      | None => showErrorMessage "No naming style selected."
      | Some namingStyle => generate v editor suffix namingStyle
      end
  end.

(** The text of the document once the command has returned. *)
Definition documentAfter (editor : Editor) (o : Outcome) : string :=
  applyEdits (documentText editor) (edits o).

End Command.

(* ================================================================== *)
(** ** Notions used to state the properties, and sample inputs *)
(* ================================================================== *)

(** *** Canonical names of a naming style

    The shape a name has when it is written in a style: letters and digits
    after a lower-case letter (camelCase) or after an upper-case letter
    (PascalCase); lower-case letters, digits and the separator after a
    lower-case letter (snake_case and kebab-case); any name (original). *)

Module Naming.

Import Gen.

Definition is_alnum (c : ascii) : bool :=
  Char.is_lower c || Char.is_upper c || Char.is_digit c.

Definition is_lower_or (sep : ascii) (c : ascii) : bool :=
  Char.is_lower c || Char.is_digit c || Ascii.eqb c sep.

Definition canonical (style : NamingStyle) (s : string) : bool :=
  match style with
  | camelCase =>
      match s with
      | String c r => Char.is_lower c && Str.forallb is_alnum r
      | EmptyString => false
      end
  | PascalCase =>
      match s with
      | String c r => Char.is_upper c && Str.forallb is_alnum r
      | EmptyString => false
      end
  | snake_case =>
      match s with
      | String c r =>
          Char.is_lower c && Str.forallb (is_lower_or Char.underscore) r
      | EmptyString => false
      end
  | kebab_case =>
      match s with
      | String c r => Char.is_lower c && Str.forallb (is_lower_or Char.hyphen) r
      | EmptyString => false
      end
  | original => true
  end.

End Naming.

(** *** Directives, as the properties name them *)

Module Directive.

Import Str Gen.

(** The revisions that read the trailing comment: the comment found after
    the first occurrence of the field name and a semicolon starts with the
    enum directive. *)
Definition enumDirective (name code : string) : bool :=
  match Re.search (re_comment name) code with
  | Some (_, g) => startsWith (trim g) "Type: enum"
  | None => false
  end.


Definition builtIn (f : Field) : bool :=
  has dartBuiltInTypes (cleanType (type f)).

End Directive.

(** *** The first occurrence of a text *)

Module Occurrence.


(** no dollar sign in a text *)
Definition no_dollar (s : string) : bool :=
  negb (Str.existsb (Ascii.eqb Char.dollar) s).

End Occurrence.

(** *** Runs of the command *)

Module Run.

Import Gen Command.

(** A host with an open editor. *)
Definition host (editor : Editor) (suffix : option string)
  (style : option NamingStyle) : Host :=
  {| activeTextEditor := Some editor;
     showInputBox := suffix;
     showQuickPick := style |}.

(** An editor without selection. *)
Definition document (text : string) : Editor :=
  {| selectionText := ""; documentText := text |}.

(** The revisions that handle every class of the text. *)
Definition multiClass (v : Revision) : bool :=
  match v with
  | V_lines | V_multi => true
  | V_single | V_constructor => false
  end.

(** A class declaration is found in the text, as the revision looks for
    one: the class pattern of the revisions that handle one class, the
    pattern with a body of those that handle every class. *)
Definition classFound (v : Revision) (code : string) : bool :=
  if multiClass v then
    match Re.matchAll re_class code with
    | [] => false
    | _ :: _ => true
    end
  else
    match Re.search re_className code with
    | Some _ => true
    | None => false
    end.

Definition noClassMessage (v : Revision) : string :=
  if multiClass v then "No Dart class found to update."
  else "No valid Dart class found.".

(** The fields a multi-class revision recognises in a class body, and the
    text it emits for a class. *)
Definition recognised (v : Revision) (style : NamingStyle) (body : string)
  : list Field :=
  match v with
  | V_lines => fieldsOfLines style body
  | _ => fieldsOf style body
  end.

Definition emitted (v : Revision) (dtoClassName : string)
  (fields : list Field) : string :=
  match v with
  | V_lines => Lines.updatedClass dtoClassName fields
  | _ => Multi.updatedClass dtoClassName fields
  end.

(** The edit made for a class found by a multi-class revision. *)
Definition classEdit (v : Revision) (editor : Editor) (suffix : string)
  (style : NamingStyle) (m : Re.Found (string * string)) : Edit :=
  {| range := matchRange editor m;
     newText := Str.trim (emitted v (fst (Re.groups m) ++ suffix)
                            (recognised v style (snd (Re.groups m)))) |}.

End Run.

Module Samples.

Import Gen Command Run.

(** A method body inside the class: the class body stops at the brace that
    closes the method. *)
Definition nested_text : string := "class B { void f() { } } class C { int x; }".

Definition nested_match : Re.Found (string * string) :=
  {| Re.index := 0; Re.len := 22; Re.groups := ("B", " void f() { ") |}.



(** An enum directive on a field of a built-in type, trailing and above. *)
Definition enum_int_trailing : string :=
  "class A {
  final int n; // Type: enum
}".


Definition enum_int_field (enum : bool) : Field :=
  {| type := "int"; name := "n"; snakeName := "n";
     nullable := false; isEnum := enum; isClass := false;
     customParsing := noParsing |}.



(** A class whose constructor requires a field of nullable type, and one
    whose constructor takes a field of non-nullable type without requiring
    it. *)
Definition required_nullable : string :=
  "class User {
  final int? age;
  User({required this.age});
}".

Definition optional_non_nullable : string :=
  "class User {
  final String name;
  User({this.name});
}".

(** The only kind of text in which the constructor pattern finds anything:
    the class name right after a backspace character. *)
Definition after_backspace : string :=
  "class User { final int age; } "
  ++ String Char.backspace "User this.age".

(** The enum field of the specification, with its directive in the trailing
    comment and in a comment line above. *)
Definition count_trailing : string :=
  "class User {
  final Count count; // Type: enum
}".


(** Two classes, the second without a field that part_000 recognises, and
    the same two in the other order. *)
Definition two_classes : string :=
  "class A {
  final int x;
}
class B {
  int y;
}".


Definition class_A : Re.Found (string * string) :=
  {| Re.index := 0; Re.len := 26; Re.groups := ("A", "
  final int x;
") |}.

Definition class_B : Re.Found (string * string) :=
  {| Re.index := 27; Re.len := 20; Re.groups := ("B", "
  int y;
") |}.

(** A text without a class. *)
Definition no_class_text : string := "void main() { runApp(); }".

End Samples.

(** *** Spans of a text *)

Module Layout.

Import Gen Command.

(** The spans [(a, b)] follow one another in the text: none starts before
    [from], each is non-empty, each starts where the one before it ended or
    later, and none ends past [limit]. *)
Fixpoint ascending (from limit : nat) (spans : list (nat * nat)) : Prop :=
  match spans with
  | [] => True
  | (a, b) :: r => from <= a /\ a < b /\ b <= limit /\ ascending b limit r
  end.

(** The span of a match. *)
Definition span {G : Type} (m : Re.Found G) : nat * nat :=
  (Re.index m, Re.index m + Re.len m).

(** The text of a span. *)
Definition slice (text : string) (s : nat * nat) : string :=
  substring (fst s) (snd s - fst s) text.

(** Nothing is selected in the editor (or blanks only). *)
Definition noSelection (editor : Editor) : bool :=
  Str.is_empty (Str.trim (selectionText editor)).

(** One turn of the loop of a multi-class revision. *)
Definition stepOf (v : Revision) (editor : Editor) (suffix : string)
  (style : NamingStyle) : Re.Found (string * string) -> string + Edit :=
  match v with
  | V_lines => classStepLines editor suffix style
  | _ => classStepMulti editor suffix style
  end.

End Layout.

(** *** Further sample inputs *)

Module MoreSamples.

Import Gen Command Run.

(** A document with a comment and two classes, the first class selected. *)
Definition selected_editor : Editor :=
  {| selectionText := "class A { int x; }";
     documentText := "// kept?
class A { int x; }
class B { int y; }" |}.


(** Two classes of one document with a field of the same name, the first
    with a directive. *)
Definition same_name_text : string :=
  "class A {
  final Money id; // Parsing: Money.parse(value), Money.show(value)
}
class B {
  final Cash id;
}".

Definition id_field (type : string) : Field :=
  {| type := type; name := "id"; snakeName := "id";
     nullable := false; isEnum := false; isClass := true;
     customParsing := {| fromJson := Some "Money.parse(value)";
                         toJson := Some "Money.show(value)" |} |}.

End MoreSamples.

(** *** Shapes of a text *)

Module Shape.

(** The first character of a text satisfies [p]. *)
Definition headIs (p : ascii -> bool) (s : string) : bool :=
  match s with
  | String c _ => p c
  | EmptyString => false
  end.

(** No blank at either end of a text. *)
Definition trimmed (s : string) : bool :=
  negb (headIs Char.is_space s) && negb (headIs Char.is_space (Str.rev s)).

(** A word character or a hyphen. *)
Definition is_key_char (c : ascii) : bool :=
  Char.is_word c || Ascii.eqb c Char.hyphen.

(** No comma in a text. *)
Definition no_comma (s : string) : bool :=
  negb (Str.existsb (Ascii.eqb ","%char) s).

End Shape.

(** *** Names with humps *)

Module Humps.

(** A name of letters and digits in which every upper-case letter comes
    right after a lower-case letter ([after_lower] says whether the
    character before the name is one): camelCase without runs of capitals,
    such as userId or homeAddress2, but not userID or a1B. *)
Fixpoint humps (after_lower : bool) (s : string) : bool :=
  match s with
  | EmptyString => true
  | String c r =>
      if Char.is_upper c then after_lower && humps false r
      else (Char.is_lower c || Char.is_digit c) && humps (Char.is_lower c) r
  end.

Definition humped (s : string) : bool := humps false s.

End Humps.

(** *** The types emitted by the second revision of part_001 *)

Module PlainTypes.

Import Str Gen.

(** The type after [as] in the entry of a field in [fromMap]:
    [type.replace("?", "")] followed by the marker of a nullable field. *)
Definition castType (f : Plain.Field) : string :=
  Replace.replace (Plain.type f) "?" ""
  ++ (if Plain.nullable f then "?" else "").

(** The type of the parameter of [copyWith] for a field:
    [type.endsWith("?") ? type : type + "?"]. *)
Definition copyWithType (f : Plain.Field) : string :=
  if endsWith (Plain.type f) "?" then Plain.type f else Plain.type f ++ "?".

End PlainTypes.

(** *** Runs that change nothing *)

Module Untouched.

Import Gen Command Run.

(** The names of the classes found in a text, in the order of the text. *)
Definition classNames (code : string) : list string :=
  List.map (fun m => fst (Re.groups m)) (Re.matchAll re_class code).

(** The outcome of a run that recognises no field in the text: a revision
    that handles every class names each class found and then reports that
    there is nothing to update; a revision that handles one class reports
    the missing fields, or the missing class. *)
Definition nothingToUpdate (v : Revision) (code : string) : Outcome :=
  if multiClass v then
    {| errors := List.map noFields (classNames code)
                 ++ ["No Dart class found to update."];
       edits := [] |}
  else
    showErrorMessage
      (if classFound v code then "No valid fields found in class."
       else "No valid Dart class found.").

(** A class whose field is not declared final. *)
Definition plain_class : string :=
  "class B {
  int y;
}".

(** A class with a field that lacks its semicolon. *)
Definition unfinished_class : string :=
  "class B {
  final int y
}".

End Untouched.

(* ================================================================== *)
(** ** Facts about strings and matchers *)
(* ================================================================== *)

Module StrFacts.

Import Str.

#[local] Arguments Ascii.eqb : simpl never.

(** A fact about one character, settled on each of the 256 code units. *)
Ltac by_enumeration c :=
  destruct c as [[] [] [] [] [] [] [] []]; vm_compute;
  intros; try reflexivity; try discriminate.

Ltac splits := repeat match goal with |- _ /\ _ => split end.

Lemma app_nil_r (s : string) : s ++ "" = s.
Proof. induction s as [|c s IH]; simpl; [reflexivity | now rewrite IH]. Qed.

Lemma app_assoc (a b c : string) : (a ++ b) ++ c = a ++ b ++ c.
Proof. induction a as [|x a IH]; simpl; [reflexivity | now rewrite IH]. Qed.

Lemma length_app (a b : string) :
  String.length (a ++ b) = String.length a + String.length b.
Proof. induction a as [|x a IH]; simpl; [reflexivity | now rewrite IH]. Qed.

Lemma forallb_app (p : ascii -> bool) (a b : string) :
  forallb p (a ++ b) = forallb p a && forallb p b.
Proof.
  induction a as [|x a IH]; simpl; [reflexivity|].
  now rewrite IH, andb_assoc.
Qed.

Lemma existsb_app (p : ascii -> bool) (a b : string) :
  existsb p (a ++ b) = existsb p a || existsb p b.
Proof.
  induction a as [|x a IH]; simpl; [reflexivity|].
  now rewrite IH, orb_assoc.
Qed.

Lemma strip_prefix_app (p r : string) : strip_prefix p (p ++ r) = Some r.
Proof.
  induction p as [|a p IH]; simpl; [reflexivity|].
  now rewrite Ascii.eqb_refl.
Qed.

Lemma strip_prefix_sound (p s r : string) :
  strip_prefix p s = Some r -> s = p ++ r.
Proof.
  revert s; induction p as [|a p IH]; intros s H; simpl in *.
  - now inversion H.
  - destruct s as [|b s]; [discriminate|].
    destruct (Ascii.eqb_spec a b) as [->|]; [|discriminate].
    now rewrite (IH _ H).
Qed.

(** What [span] returns: the split of the text, a first part in the class
    and a second part that does not start in it. *)
Lemma span_sound (p : ascii -> bool) (s a b : string) :
  span p s = (a, b) ->
  s = a ++ b /\ forallb p a = true /\
  match b with String c _ => p c = false | EmptyString => True end.
Proof.
  revert a b; induction s as [|c s IH]; intros a b H; simpl in H.
  - inversion H; subst; simpl; auto.
  - destruct (p c) eqn:Hc.
    + destruct (span p s) as [a' b'] eqn:Hs. inversion H; subst.
      destruct (IH _ _ eq_refl) as (-> & Ha & Hb).
      simpl. rewrite Hc, Ha. auto.
    + inversion H; subst. simpl. auto.
Qed.

(** The first occurrence of a pattern splits the text around it, and the
    pattern does not start anywhere in the part before it. *)
Lemma find_first_sound (pat s a b : string) :
  Replace.find_first pat s = Some (a, b) -> s = a ++ pat ++ b.
Proof.
  revert a b; induction s as [|c s IH]; intros a b H; simpl in H.
  - destruct (strip_prefix pat "") eqn:Hp; [|discriminate].
    inversion H; subst. now apply strip_prefix_sound in Hp.
  - destruct (strip_prefix pat (String c s)) eqn:Hp.
    + inversion H; subst. now apply strip_prefix_sound in Hp.
    + destruct (Replace.find_first pat s) as [[a' b']|] eqn:Hf; [|discriminate].
      inversion H; subst. simpl. now rewrite (IH _ _ eq_refl).
Qed.

Lemma find_first_none_char (c : ascii) (s : string) :
  existsb (Ascii.eqb c) s = false ->
  Replace.find_first (String c "") s = None.
Proof.
  induction s as [|d s IH]; simpl; intros H; [reflexivity|].
  apply orb_false_elim in H as [Hd Hs].
  rewrite Hd, (IH Hs). reflexivity.
Qed.



End StrFacts.

Module ReFacts.

Import Str StrFacts.

#[local] Arguments Ascii.eqb : simpl never.

Section Sound.
Context {A : Type}.
Implicit Types (k : @Re.K A) (p : ascii -> bool) (s : string).

Lemma lit_sound l k s x :
  Re.lit l k s = Some x -> exists r, s = l ++ r /\ k l r = Some x.
Proof.
  unfold Re.lit. intros H.
  destruct (strip_prefix l s) as [r|] eqn:Hp; [|discriminate].
  exists r. split; [now apply strip_prefix_sound|assumption].
Qed.

Lemma lit_none l k s :
  strip_prefix l s = None -> Re.lit l k s = None.
Proof. unfold Re.lit. now intros ->. Qed.

(** A greedy repetition hands over a text in the class. *)
Lemma star_sound p k s x :
  Re.star p k s = Some x ->
  exists m r, s = m ++ r /\ forallb p m = true /\ k m r = Some x.
Proof.
  revert k; induction s as [|c s IH]; intros k H; simpl in H.
  - exists "", "". auto.
  - destruct (p c) eqn:Hc.
    + destruct (Re.star p (fun m rest => k (String c m) rest) s) as [y|] eqn:Hs.
      * inversion H; subst y.
        destruct (IH _ Hs) as (m & r & -> & Hm & Hk).
        exists (String c m), r. simpl. rewrite Hc, Hm. auto.
      * exists "", (String c s). auto.
    + exists "", (String c s). auto.
Qed.

Lemma plus_sound p k s x :
  Re.plus p k s = Some x ->
  exists c m r, s = String c m ++ r /\ forallb p (String c m) = true
                /\ k (String c m) r = Some x.
Proof.
  unfold Re.plus. destruct s as [|c s]; [discriminate|].
  destruct (p c) eqn:Hc; [|discriminate]. intros H.
  destruct (star_sound _ _ _ _ H) as (m & r & -> & Hm & Hk).
  exists c, m, r. simpl. rewrite Hc, Hm. auto.
Qed.

(** A lazy repetition hands over the shortest text its continuation
    accepts: the continuation fails at every earlier split. *)
Lemma lazy_star_sound p k s x :
  Re.lazy_star p k s = Some x ->
  exists m r, s = m ++ r /\ forallb p m = true /\ k m r = Some x /\
    forall m1 c m2, m = m1 ++ String c m2 -> k m1 (String c m2 ++ r) = None.
Proof.
  revert k; induction s as [|c s IH]; intros k H; simpl in H.
  - destruct (k "" "") as [y|] eqn:Hk; [|discriminate].
    inversion H; subst y.
    exists "", "". splits; auto.
    intros m1 c m2 E. destruct m1; discriminate.
  - destruct (k "" (String c s)) as [y|] eqn:Hk.
    + inversion H; subst y.
      exists "", (String c s). splits; auto.
      intros m1 d m2 E. destruct m1; discriminate.
    + destruct (p c) eqn:Hc; [|discriminate].
      destruct (IH _ H) as (m & r & -> & Hm & Hkm & Hmin).
      exists (String c m), r. simpl. rewrite Hc, Hm. splits; auto.
      intros m1 d m2 E. destruct m1 as [|e m1]; simpl in E.
      * inversion E; subst. simpl. exact Hk.
      * inversion E; subst. apply (Hmin m1 d m2 eq_refl).
Qed.

Lemma opt_sound c k s x :
  Re.opt c k s = Some x ->
  exists m r, s = m ++ r /\ (m = "" \/ m = String c "") /\ k m r = Some x.
Proof.
  unfold Re.opt. destruct s as [|d s].
  - intros H. exists "", "". auto.
  - destruct (Ascii.eqb_spec c d) as [->|Hn].
    + destruct (k (String d "") s) as [y|] eqn:Hk; intros H.
      * inversion H; subst. exists (String d ""), s. auto.
      * exists "", (String d s). auto.
    + intros H. exists "", (String d s). auto.
Qed.

(** The first position at which a matcher succeeds. *)
Lemma search_from_sound (m : string -> option A) i s j x :
  Re.search_from m i s = Some (j, x) ->
  exists pre rest, s = pre ++ rest /\ j = i + String.length pre
                   /\ m rest = Some x.
Proof.
  revert i; induction s as [|c s IH]; intros i H; simpl in H.
  - destruct (m "") as [y|] eqn:Hm; [|discriminate].
    inversion H; subst. exists "", "". simpl. auto.
  - destruct (m (String c s)) as [y|] eqn:Hm.
    + inversion H; subst. exists "", (String c s). simpl. auto.
    + destruct (IH _ H) as (pre & rest & -> & -> & Hr).
      exists (String c pre), rest. simpl. splits; auto; lia.
Qed.

Lemma search_sound (m : string -> option A) s j x :
  Re.search m s = Some (j, x) ->
  exists pre rest, s = pre ++ rest /\ j = String.length pre /\ m rest = Some x.
Proof. apply search_from_sound. Qed.

(** No match anywhere when the matcher fails on every text that starts
    with a character of [s] (and on the empty text). *)
Lemma search_from_none (m : string -> option A) i s :
  (forall pre rest, s = pre ++ rest -> m rest = None) ->
  Re.search_from m i s = None.
Proof.
  revert i; induction s as [|c s IH]; intros i H; simpl.
  - now rewrite (H "" "" eq_refl).
  - rewrite (H "" (String c s) eq_refl). apply IH.
    intros pre rest E. apply (H (String c pre) rest). simpl. now rewrite E.
Qed.

End Sound.

(** Every match of a global scan is a match of the pattern at its index. *)
Lemma scan_sound {G : Type} (m : string -> option (G * string)) s :
  forall i skip x, In x (Re.scan m i skip s) ->
  exists pre rest left,
    s = pre ++ rest /\ Re.index x = i + String.length pre
    /\ m rest = Some (Re.groups x, left)
    /\ Re.len x = String.length rest - String.length left.
Proof.
  induction s as [|c s IH]; intros i skip x H.
  - destruct skip; simpl in H; [|contradiction].
    destruct (m "") as [[g r]|] eqn:Hm; [|contradiction].
    destruct H as [<-|[]]. exists "", "", r. simpl. splits; auto.
  - destruct skip as [|k]; simpl in H.
    + destruct (m (String c s)) as [[g r]|] eqn:Hm.
      * destruct H as [<-|H].
        -- exists "", (String c s), r. simpl. splits; auto.
        -- destruct (IH _ _ _ H) as (pre & rest & left & -> & Hi & Hr & Hl).
           exists (String c pre), rest, left. simpl. splits; auto; lia.
      * destruct (IH _ _ _ H) as (pre & rest & left & -> & Hi & Hr & Hl).
        exists (String c pre), rest, left. simpl. splits; auto; lia.
    + destruct (IH _ _ _ H) as (pre & rest & left & -> & Hi & Hr & Hl).
      exists (String c pre), rest, left. simpl. splits; auto; lia.
Qed.

Lemma matchAll_sound {G : Type} (m : string -> option (G * string)) s x :
  In x (Re.matchAll m s) ->
  exists pre rest left,
    s = pre ++ rest /\ Re.index x = String.length pre
    /\ m rest = Some (Re.groups x, left)
    /\ Re.len x = String.length rest - String.length left.
Proof. intros H. now apply scan_sound in H. Qed.

(** Nothing is found where the pattern matches no part of the text. *)
Lemma scan_none {G : Type} (m : string -> option (G * string)) s :
  (forall pre rest, s = pre ++ rest -> m rest = None) ->
  forall i skip, Re.scan m i skip s = [].
Proof.
  induction s as [|c s IH]; intros H i skip.
  - destruct skip; simpl; [|reflexivity]. now rewrite (H "" "" eq_refl).
  - assert (Hs : forall pre rest, s = pre ++ rest -> m rest = None).
    { intros pre rest E. apply (H (String c pre) rest). simpl. now rewrite E. }
    destruct skip; simpl.
    + rewrite (H "" (String c s) eq_refl). now apply IH.
    + now apply IH.
Qed.

End ReFacts.

Module ClassLocator.

Import Str StrFacts ReFacts Gen Samples.

#[local] Arguments Ascii.eqb : simpl never.

Lemma no_char_intro (c : ascii) (body : string) :
  (forall m1 d m2, body = m1 ++ String d m2 -> d <> c) ->
  existsb (Ascii.eqb c) body = false.
Proof.
  induction body as [|d body IH]; intros H; simpl; [reflexivity|].
  apply orb_false_intro.
  - apply Ascii.eqb_neq. intros ->. now apply (H "" d body eq_refl).
  - apply IH. intros m1 e m2 E. apply (H (String d m1) e m2). simpl. now rewrite E.
Qed.

(** What a match of the class pattern is made of. *)
Lemma re_class_sound (s name body rest : string) :
  re_class s = Some ((name, body), rest) ->
  exists ws ws',
    s = "class" ++ ws ++ name ++ ws' ++ "{" ++ body ++ "}" ++ rest
    /\ ws <> "" /\ forallb Char.is_space ws = true
    /\ name <> "" /\ forallb Char.is_word name = true
    /\ forallb Char.is_space ws' = true
    /\ existsb (Ascii.eqb "}"%char) body = false.
Proof.
  unfold re_class. intros H.
  apply lit_sound in H as (r1 & -> & H).
  apply plus_sound in H as (c1 & w1 & r2 & -> & Hws & H).
  apply plus_sound in H as (c2 & w2 & r3 & -> & Hname & H).
  apply star_sound in H as (ws' & r4 & -> & Hws' & H).
  apply lit_sound in H as (r5 & -> & H).
  apply lazy_star_sound in H as (b & r6 & -> & _ & H & Hmin).
  apply lit_sound in H as (r7 & -> & H).
  inversion H; subst.
  exists (String c1 w1), ws'. splits; auto; try discriminate.
  apply no_char_intro. intros m1 d m2 E ->.
  specialize (Hmin m1 "}"%char m2 E). discriminate.
Qed.

(** C7. In the revisions that handle every class of the text, each class
    found starts with the word class, blanks, an identifier, optional blanks
    and an opening brace; its body runs up to the first closing brace that
    follows and holds no closing brace itself, whatever opening braces it
    holds: braces are not paired. *)
Theorem class_body_ends_at_first_closing_brace
  (text : string) (m : Re.Found (string * string)) :
  In m (Re.matchAll re_class text) ->
  exists pre ws name ws' body post,
    text = pre ++ "class" ++ ws ++ name ++ ws' ++ "{" ++ body ++ "}" ++ post
    /\ Re.index m = String.length pre
    /\ Re.groups m = (name, body)
    /\ Re.len m
       = String.length ("class" ++ ws ++ name ++ ws' ++ "{" ++ body ++ "}")
    /\ ws <> "" /\ forallb Char.is_space ws = true
    /\ name <> "" /\ forallb Char.is_word name = true
    /\ forallb Char.is_space ws' = true
    /\ existsb (Ascii.eqb "}"%char) body = false.
Proof.
  intros H.
  apply matchAll_sound in H as (pre & rest & left & -> & Hi & Hm & Hl).
  destruct (Re.groups m) as [name body] eqn:Hg.
  apply re_class_sound in Hm
    as (ws & ws' & -> & Hws & Hws2 & Hn & Hn2 & Hws' & Hb).
  exists pre, ws, name, ws', body, left. splits; auto.
  rewrite Hl, !length_app. cbn [String.length]. lia.
Qed.

Lemma class_body_ends_at_first_closing_brace_witness :
  In nested_match (Re.matchAll re_class nested_text)
  /\ exists pre ws name ws' body post,
       nested_text
       = pre ++ "class" ++ ws ++ name ++ ws' ++ "{" ++ body ++ "}" ++ post
       /\ Re.index nested_match = String.length pre
       /\ Re.groups nested_match = (name, body)
       /\ Re.len nested_match
          = String.length ("class" ++ ws ++ name ++ ws' ++ "{" ++ body ++ "}")
       /\ ws <> "" /\ forallb Char.is_space ws = true
       /\ name <> "" /\ forallb Char.is_word name = true
       /\ forallb Char.is_space ws' = true
       /\ existsb (Ascii.eqb "}"%char) body = false.
Proof.
  assert (H : In nested_match (Re.matchAll re_class nested_text))
    by (vm_compute; auto).
  split; [exact H|].
  exact (class_body_ends_at_first_closing_brace nested_text nested_match H).
Defined.

End ClassLocator.

Module CaseConverter.

Import Str StrFacts Gen Naming.

#[local] Arguments Ascii.eqb : simpl never.

Lemma alnum_not_underscore (c : ascii) :
  is_alnum c = true -> Ascii.eqb c Char.underscore = false.
Proof. by_enumeration c. Qed.

Lemma lower_not_underscore (c : ascii) :
  Char.is_lower c = true -> Ascii.eqb c Char.underscore = false.
Proof. by_enumeration c. Qed.

Lemma lower_is_word (c : ascii) : Char.is_lower c = true -> Char.is_word c = true.
Proof. by_enumeration c. Qed.

Lemma upper_is_word (c : ascii) : Char.is_upper c = true -> Char.is_word c = true.
Proof. by_enumeration c. Qed.

Lemma upper_not_underscore (c : ascii) :
  Char.is_upper c = true -> Ascii.eqb "_"%char c = false.
Proof. by_enumeration c. Qed.

Lemma upper_to_upper (c : ascii) : Char.is_upper c = true -> Char.to_upper c = c.
Proof. by_enumeration c. Qed.

Lemma lower_or_not_upper (sep c : ascii) :
  Char.is_upper sep = false ->
  is_lower_or sep c = true -> Char.is_upper c = false.
Proof.
  unfold is_lower_or. intros Hsep H.
  destruct (Ascii.eqb_spec c sep) as [->|_]; [assumption|].
  rewrite orb_false_r in H. revert H. clear. by_enumeration c.
Qed.

Lemma lower_or_to_lower (sep c : ascii) :
  Char.to_lower sep = sep ->
  is_lower_or sep c = true -> Char.to_lower c = c.
Proof.
  unfold is_lower_or. intros Hsep H.
  destruct (Ascii.eqb_spec c sep) as [->|_]; [assumption|].
  rewrite orb_false_r in H. revert H. clear. by_enumeration c.
Qed.

Lemma lower_lower_or (sep c : ascii) :
  Char.is_lower c = true -> is_lower_or sep c = true.
Proof. unfold is_lower_or. now intros ->. Qed.

(** Without an underscore nothing is replaced by the camelCase and the
    PascalCase converters. *)
Lemma toCamelCase_id (s : string) :
  existsb (fun c => Ascii.eqb c Char.underscore) s = false -> toCamelCase s = s.
Proof.
  induction s as [|c s IH]; simpl; intros H; [reflexivity|].
  apply orb_false_elim in H as [Hc Hs]. rewrite Hc. now rewrite (IH Hs).
Qed.

Lemma toPascalRest_id (s : string) :
  existsb (fun c => Ascii.eqb c Char.underscore) s = false -> toPascalRest s = s.
Proof.
  induction s as [|c s IH]; simpl; intros H; [reflexivity|].
  apply orb_false_elim in H as [Hc Hs]. rewrite Hc. now rewrite (IH Hs).
Qed.

Lemma alnum_no_underscore (s : string) :
  forallb is_alnum s = true ->
  existsb (fun c => Ascii.eqb c Char.underscore) s = false.
Proof.
  induction s as [|c s IH]; simpl; intros H; [reflexivity|].
  apply andb_prop in H as [Hc Hs].
  now rewrite (alnum_not_underscore _ Hc), (IH Hs).
Qed.

(** Without an upper-case letter no separator is inserted. *)
Lemma separate_id (sep : ascii) (s : string) :
  forallb (fun c => negb (Char.is_upper c)) s = true -> separate sep s = s.
Proof.
  induction s as [|a s IH]; intros H; [reflexivity|].
  simpl in H. apply andb_prop in H as [_ Hs].
  destruct s as [|b s]; [reflexivity|].
  specialize (IH Hs).
  simpl in Hs. apply andb_prop in Hs as [Hb _].
  apply negb_true_iff in Hb.
  change (separate sep (String a (String b s)))
    with (if Char.is_lower a && Char.is_upper b
          then String a (String sep (String b (separate sep s)))
          else String a (separate sep (String b s))).
  now rewrite Hb, andb_false_r, IH.
Qed.

Lemma map_id (f : ascii -> ascii) (p : ascii -> bool) (s : string) :
  (forall c, p c = true -> f c = c) ->
  forallb p s = true -> Str.map f s = s.
Proof.
  intros Hf. induction s as [|c s IH]; simpl; intros H; [reflexivity|].
  apply andb_prop in H as [Hc Hs]. now rewrite (Hf _ Hc), (IH Hs).
Qed.

Lemma forallb_impl (p q : ascii -> bool) (s : string) :
  (forall c, p c = true -> q c = true) ->
  forallb p s = true -> forallb q s = true.
Proof.
  intros Hpq. induction s as [|c s IH]; simpl; intros H; [reflexivity|].
  apply andb_prop in H as [Hc Hs]. now rewrite (Hpq _ Hc), (IH Hs).
Qed.

(** A name made of lower-case letters, digits and a separator that has no
    case is left as it is by the converter that inserts that separator. *)
Lemma separated_id (sep : ascii) (s : string) :
  Char.is_upper sep = false -> Char.to_lower sep = sep ->
  forallb (is_lower_or sep) s = true ->
  toLowerCase (separate sep s) = s.
Proof.
  intros Hu Hl H.
  rewrite separate_id.
  - apply (map_id _ (is_lower_or sep)); [|assumption].
    intros c. now apply lower_or_to_lower.
  - revert H. apply forallb_impl. intros c Hc.
    now rewrite (lower_or_not_upper sep c Hu Hc).
Qed.

(** C8. A name already in the canonical form of a naming style is returned
    unchanged by the converter of that style: snake_case maps user_id to
    user_id and PascalCase maps UserId to UserId. *)
Theorem convertCase_canonical (style : NamingStyle) (name : string) :
  canonical style name = true -> convertCase style name = name.
Proof.
  destruct style; simpl; intros H; try reflexivity.
  - (* camelCase *)
    destruct name as [|c r]; [discriminate|].
    apply andb_prop in H as [Hc Hr].
    apply toCamelCase_id. simpl.
    now rewrite (lower_not_underscore _ Hc), (alnum_no_underscore _ Hr).
  - (* snake_case *)
    destruct name as [|c r]; [discriminate|].
    apply andb_prop in H as [Hc Hr].
    apply separated_id; try reflexivity.
    simpl. now rewrite (lower_lower_or _ _ Hc), Hr.
  - (* PascalCase *)
    destruct name as [|c r]; [discriminate|].
    apply andb_prop in H as [Hc Hr].
    unfold toPascalCase. rewrite (upper_is_word _ Hc).
    rewrite (toPascalRest_id _ (alnum_no_underscore _ Hr)).
    unfold pascalPiece, Replace.replace. simpl.
    rewrite (upper_not_underscore _ Hc). simpl.
    now rewrite (upper_to_upper _ Hc).
  - (* kebab-case *)
    destruct name as [|c r]; [discriminate|].
    apply andb_prop in H as [Hc Hr].
    apply separated_id; try reflexivity.
    simpl. now rewrite (lower_lower_or _ _ Hc), Hr.
Qed.

Lemma convertCase_canonical_witness :
  (canonical snake_case "user_id" = true
   /\ convertCase snake_case "user_id" = "user_id")
  /\ (canonical PascalCase "UserId" = true
      /\ convertCase PascalCase "UserId" = "UserId").
Proof.
  split; split.
  - reflexivity.
  - exact (convertCase_canonical snake_case "user_id" eq_refl).
  - reflexivity.
  - exact (convertCase_canonical PascalCase "UserId" eq_refl).
Defined.

End CaseConverter.

Module FieldFacts.

Import Str StrFacts ReFacts Gen.

#[local] Arguments Ascii.eqb : simpl never.

(** What a match of the declaration pattern captures: a type made of word
    characters with an optional question mark, and a name made of word
    characters. *)
Lemma re_decl_sound (s t n rest : string) :
  re_decl s = Some ((t, n), rest) ->
  exists w q,
    t = w ++ q /\ w <> "" /\ forallb Char.is_word w = true
    /\ (q = "" \/ q = "?")
    /\ n <> "" /\ forallb Char.is_word n = true.
Proof.
  unfold re_decl. intros H.
  apply plus_sound in H as (c1 & w & r1 & -> & Hw & H).
  apply opt_sound in H as (q & r2 & -> & Hq & H).
  apply plus_sound in H as (c2 & ws & r3 & -> & _ & H).
  apply plus_sound in H as (c3 & nm & r4 & -> & Hn & H).
  apply lit_sound in H as (r5 & -> & H).
  inversion H; subst.
  exists (String c1 w), q. splits; auto; discriminate.
Qed.

Lemma re_final_field_sound (s t n rest : string) :
  re_final_field s = Some ((t, n), rest) ->
  exists s', re_decl s' = Some ((t, n), rest).
Proof.
  unfold re_final_field. intros H.
  apply lit_sound in H as (r1 & -> & H).
  apply plus_sound in H as (c & ws & r2 & -> & _ & H).
  now exists r2.
Qed.

(** The fields of the directive-reading revisions come from matches of the
    declaration pattern. *)
Lemma fieldsOf_sound (style : NamingStyle) (code : string) (f : Field) :
  In f (fieldsOf style code) ->
  exists s rest,
    re_decl s = Some ((type f, name f), rest)
    /\ snakeName f = convertCase style (name f)
    /\ nullable f = endsWith (type f) "?"
    /\ (isEnum f, isClass f, customParsing f)
       = determineFieldType (type f) (name f) code.
Proof.
  unfold fieldsOf. intros H. apply in_map_iff in H as (m & <- & Hm).
  apply matchAll_sound in Hm as (pre & s & rest & _ & _ & Hs & _).
  exists s, rest. unfold mkField.
  destruct (Re.groups m) as [t n].
  destruct (determineFieldType t n code) as [[e c] cp] eqn:Hd.
  simpl. rewrite Hd. auto.
Qed.

Lemma scanLines_sound (style : NamingStyle) (lines : list string) :
  forall prev f, In f (scanLines style prev lines) ->
  exists prev' line, lineField style prev' line = Some f.
Proof.
  induction lines as [|l r IH]; intros prev f H; simpl in H; [contradiction|].
  destruct (lineField style prev l) as [g|] eqn:Hl.
  - destruct H as [<-|H]; [now exists prev, l | now apply (IH _ _ H)].
  - now apply (IH _ _ H).
Qed.

Lemma lineField_sound (style : NamingStyle) (prev : list string)
  (line : string) (f : Field) :
  lineField style prev line = Some f ->
  (exists s rest, re_decl s = Some ((type f, name f), rest))
  /\ snakeName f = convertCase style (name f)
  /\ nullable f = endsWith (type f) "?"
  /\ isEnum f = includes (commentBlock prev) "Type: enum"
  /\ isClass f = negb (isEnum f)
                 && negb (has dartBuiltInTypes (cleanType (type f))).
Proof.
  unfold lineField. intros H.
  destruct (re_final_field (trim line)) as [[[t n] rest]|] eqn:Hr;
    [|discriminate].
  inversion H; subst; clear H. simpl.
  apply re_final_field_sound in Hr as (s' & Hs').
  splits; eauto.
  now destruct (includes (commentBlock prev) "Type: enum").
Qed.

Lemma fieldsOfLines_sound (style : NamingStyle) (body : string) (f : Field) :
  In f (fieldsOfLines style body) ->
  exists prev line, lineField style prev line = Some f.
Proof. apply scanLines_sound. Qed.

End FieldFacts.

Module Synthesizer.

Import Str StrFacts Gen Samples.

#[local] Arguments Ascii.eqb : simpl never.





End Synthesizer.

Module Placeholder.

Import Str StrFacts ReFacts Gen FieldFacts Occurrence Samples.

#[local] Arguments Ascii.eqb : simpl never.

Lemma no_dollar_nil : no_dollar "" = true.
Proof. reflexivity. Qed.






















End Placeholder.

Module FieldKinds.

Import Str StrFacts ReFacts Gen FieldFacts Directive Samples.

#[local] Arguments Ascii.eqb : simpl never.

Lemma split_lines_aux_single (s cur : string) :
  existsb (Ascii.eqb Char.lf) s = false ->
  split_lines_aux cur s = [rev_append cur s].
Proof.
  revert cur; induction s as [|c s IH]; intros cur H; simpl in *.
  - reflexivity.
  - apply orb_false_elim in H as [Hc Hs].
    rewrite Ascii.eqb_sym, Hc. now apply IH.
Qed.

Lemma dot_not_lf (c : ascii) :
  Char.is_dot c = true -> Ascii.eqb Char.lf c = false.
Proof. by_enumeration c. Qed.

Lemma dots_no_lf (g : string) :
  forallb Char.is_dot g = true -> existsb (Ascii.eqb Char.lf) g = false.
Proof.
  induction g as [|c g IH]; simpl; intros H; [reflexivity|].
  apply andb_prop in H as [Hc Hg]. now rewrite (dot_not_lf _ Hc), (IH Hg).
Qed.

(** The comment captured after a field is a single line. *)
Lemma re_comment_one_line (name s g : string) :
  re_comment name s = Some g -> split_lines g = [g].
Proof.
  unfold re_comment. intros H.
  apply lit_sound in H as (r1 & -> & H).
  apply lit_sound in H as (r2 & -> & H).
  apply star_sound in H as (w1 & r3 & -> & _ & H).
  apply lit_sound in H as (r4 & -> & H).
  apply star_sound in H as (w2 & r5 & -> & _ & H).
  apply plus_sound in H as (c & m & r6 & -> & Hd & H).
  inversion H; subst.
  now apply split_lines_aux_single, dots_no_lf.
Qed.





(** In data.command.ts the same directive, trailing, leaves the field plain. *)
Lemma builtin_type_stays_plain :
  fieldsOf original enum_int_trailing = [enum_int_field false]
  /\ enumDirective "n" enum_int_trailing = true.
Proof. split; reflexivity. Qed.

End FieldKinds.

Module Nullability.

Import Str StrFacts ReFacts Gen Samples.

#[local] Arguments Ascii.eqb : simpl never.

(** The constructor pattern starts with the backspace character: it finds
    nothing in a text that has none. *)
Lemma no_backspace_no_constructor (className code : string) :
  existsb (Ascii.eqb Char.backspace) code = false ->
  Plain.constructorParams className code = None.
Proof.
  intros H. unfold Plain.constructorParams, Re.search.
  rewrite search_from_none; [reflexivity|].
  intros pre rest ->. rewrite existsb_app in H.
  apply orb_false_elim in H as [_ H].
  unfold re_constructor. apply lit_none.
  destruct rest as [|c rest]; [reflexivity|].
  simpl in H. apply orb_false_elim in H as [Hc _].
  simpl. now rewrite Hc.
Qed.

(** X1. So in such a text the nullability of every field is the one read
    from its type, whatever the constructor says. *)
Lemma nullable_from_type (style : NamingStyle) (className code : string) :
  existsb (Ascii.eqb Char.backspace) code = false ->
  Plain.fieldsOf style className code = Plain.fieldsFromType style code
  /\ Forall (fun f => Plain.nullable f = endsWith (Plain.type f) "?")
       (Plain.fieldsOf style className code).
Proof.
  intros H. unfold Plain.fieldsOf.
  rewrite (no_backspace_no_constructor _ _ H). split; [reflexivity|].
  apply Forall_forall. intros f Hf.
  unfold Plain.fieldsFromType in Hf. apply in_map_iff in Hf as (m & <- & _).
  unfold Plain.mkField. now destruct (Re.groups m).
Qed.

Lemma nullable_from_type_witness :
  existsb (Ascii.eqb Char.backspace) required_nullable = false
  /\ Plain.fieldsOf original "User" required_nullable
     = Plain.fieldsFromType original required_nullable
  /\ Forall (fun f => Plain.nullable f = endsWith (Plain.type f) "?")
       (Plain.fieldsOf original "User" required_nullable).
Proof.
  split; [reflexivity|].
  exact (nullable_from_type original "User" required_nullable eq_refl).
Defined.

(** C2 at three inputs.  The field [age] is required by the constructor and
    comes out nullable; the field [name] is not required and comes out
    non-nullable: the constructor is not found in either text and the
    reading of the type stands.  Where the pattern does find a parameter
    list (after a backspace), the field [age] named there without the word
    required comes out non-nullable. *)
Lemma constructor_reading_not_applied :
  Re.search re_className required_nullable = Some (0, "User")
  /\ Plain.constructorParams "User" required_nullable = None
  /\ Plain.fieldsOf original "User" required_nullable
     = [ {| Plain.type := "int?"; Plain.name := "age";
            Plain.snakeName := "age"; Plain.nullable := true |} ]
  /\ Plain.constructorParams "User" optional_non_nullable = None
  /\ Plain.fieldsOf original "User" optional_non_nullable
     = [ {| Plain.type := "String"; Plain.name := "name";
            Plain.snakeName := "name"; Plain.nullable := false |} ]
  /\ Plain.constructorParams "User" after_backspace = Some "this.age"
  /\ includes "this.age" "required this.age" = false
  /\ Plain.fieldsOf original "User" after_backspace
     = [ {| Plain.type := "int"; Plain.name := "age";
            Plain.snakeName := "age"; Plain.nullable := false |} ].
Proof. repeat split. Qed.

End Nullability.

Module Orchestrator.

Import Str StrFacts ReFacts Gen Command Run Samples.

#[local] Arguments Ascii.eqb : simpl never.

(** *** The enum field of the specification *)



(** *** The prompts *)

(** C4, as the code has it.  When the naming-style selection is dismissed
    the command stops with an error message: no edit is made and the
    document is left as it was, whatever was answered to the suffix prompt.
    When the suffix prompt is dismissed the command goes on with an empty
    suffix, as if an empty text had been entered. *)
Theorem prompt_dismissal
  (v : Revision) (editor : Editor) (answer : option string)
  (style : NamingStyle) :
  dataClass v (host editor answer None)
  = showErrorMessage "No naming style selected."
  /\ edits (dataClass v (host editor answer None)) = []
  /\ documentAfter editor (dataClass v (host editor answer None))
     = documentText editor
  /\ dataClass v (host editor None (Some style)) = generate v editor "" style
  /\ dataClass v (host editor None (Some style))
     = dataClass v (host editor (Some "") (Some style)).
Proof. repeat split. Qed.

(** The claim as it was stated fails: with the suffix prompt dismissed the
    class is generated and the document is replaced. *)
Lemma suffix_dismissed_still_generates :
  errors (dataClass V_single
            (host (document count_trailing) None (Some original))) = []
  /\ List.length
       (edits (dataClass V_single
                 (host (document count_trailing) None (Some original)))) = 1
  /\ documentAfter (document count_trailing)
       (dataClass V_single
          (host (document count_trailing) None (Some original)))
     <> documentText (document count_trailing).
Proof.
  split; [reflexivity|]. split; [reflexivity|].
  intros H. vm_compute in H. discriminate.
Qed.

(** *** No class in the text *)

Lemma finish_nothing (msgs : list string) :
  finish {| errors := msgs; edits := [] |}
  = {| errors := msgs ++ ["No Dart class found to update."]; edits := [] |}.
Proof. reflexivity. Qed.

(** C5. When no class declaration is found in the text, the command makes no
    edit, shows one error message (that no class was found, or before that
    that no naming style was selected) and leaves the document as it was. *)
Theorem no_class_no_edit (v : Revision) (h : Host) (editor : Editor) :
  activeTextEditor h = Some editor ->
  classFound v (classCodeOf editor) = false ->
  edits (dataClass v h) = []
  /\ errors (dataClass v h)
     = [ match showQuickPick h with
         | Some _ => noClassMessage v
         | None => "No naming style selected."
         end ]
  /\ documentAfter editor (dataClass v h) = documentText editor.
Proof.
  intros He Hc.
  assert (G : edits (dataClass v h) = []
              /\ errors (dataClass v h)
                 = [ match showQuickPick h with
                     | Some _ => noClassMessage v
                     | None => "No naming style selected."
                     end ]).
  { unfold dataClass. rewrite He.
    destruct (showQuickPick h) as [style|]; [|split; reflexivity].
    unfold classFound in Hc.
    destruct v; cbn [multiClass] in Hc; cbn [generate noClassMessage multiClass].
    - unfold generateSingle.
      destruct (Re.search re_className (classCodeOf editor)) as [[i n]|];
        [discriminate | split; reflexivity].
    - unfold generateAll.
      destruct (Re.matchAll re_class (classCodeOf editor));
        [split; reflexivity | discriminate].
    - unfold generateAll.
      destruct (Re.matchAll re_class (classCodeOf editor));
        [split; reflexivity | discriminate].
    - unfold generateConstructorBased.
      destruct (Re.search re_className (classCodeOf editor)) as [[i n]|];
        [discriminate | split; reflexivity]. }
  destruct G as [G1 G2]. splits; auto.
  unfold documentAfter. now rewrite G1.
Qed.

Lemma no_class_no_edit_witness :
  activeTextEditor (host (document no_class_text) (Some "DTO") (Some original))
  = Some (document no_class_text)
  /\ classFound V_single (classCodeOf (document no_class_text)) = false
  /\ edits (dataClass V_single
              (host (document no_class_text) (Some "DTO") (Some original))) = []
  /\ errors (dataClass V_single
               (host (document no_class_text) (Some "DTO") (Some original)))
     = ["No valid Dart class found."]
  /\ documentAfter (document no_class_text)
       (dataClass V_single
          (host (document no_class_text) (Some "DTO") (Some original)))
     = no_class_text.
Proof.
  split; [reflexivity|]. split; [reflexivity|].
  exact (no_class_no_edit V_single
           (host (document no_class_text) (Some "DTO") (Some original))
           (document no_class_text) eq_refl eq_refl).
Defined.

Lemma includes_false_suffix (s pat pre rest : string) :
  includes s pat = false -> s = pre ++ rest -> strip_prefix pat rest = None.
Proof.
  revert s; induction pre as [|c pre IH]; intros s H ->.
  - simpl in H. destruct rest; simpl in H.
    + rewrite orb_false_r in H. unfold startsWith in H.
      now destruct (strip_prefix pat "").
    + apply orb_false_elim in H as [H _]. unfold startsWith in H.
      now destruct (strip_prefix pat (String a rest)).
  - simpl in H. apply orb_false_elim in H as [_ H].
    now apply (IH _ H).
Qed.

(** X3. A text that does not hold the word class has no class declaration,
    for any revision. *)
Lemma no_keyword_no_class (v : Revision) (code : string) :
  includes code "class" = false -> classFound v code = false.
Proof.
  intros H. unfold classFound.
  destruct (multiClass v).
  - unfold Re.matchAll. rewrite scan_none; [reflexivity|].
    intros pre rest E. unfold re_class. apply lit_none.
    now apply (includes_false_suffix _ _ _ _ H E).
  - unfold Re.search. rewrite search_from_none; [reflexivity|].
    intros pre rest E. unfold re_className. apply lit_none.
    now apply (includes_false_suffix _ _ _ _ H E).
Qed.

Lemma no_keyword_no_class_witness :
  includes no_class_text "class" = false
  /\ classFound V_multi no_class_text = false.
Proof.
  split; [reflexivity|].
  exact (no_keyword_no_class V_multi no_class_text eq_refl).
Defined.

(** *** Several classes *)

Lemma classStepLines_eq editor suffix style m :
  classStepLines editor suffix style m
  = match recognised V_lines style (snd (Re.groups m)) with
    | [] => inl (noFields (fst (Re.groups m)))
    | _ :: _ => inr (classEdit V_lines editor suffix style m)
    end.
Proof.
  unfold classStepLines, classEdit. destruct (Re.groups m) as [n b]. simpl.
  now destruct (fieldsOfLines style b).
Qed.

Lemma classStepMulti_eq editor suffix style m :
  classStepMulti editor suffix style m
  = match recognised V_multi style (snd (Re.groups m)) with
    | [] => inl (noFields (fst (Re.groups m)))
    | _ :: _ => inr (classEdit V_multi editor suffix style m)
    end.
Proof.
  unfold classStepMulti, classEdit. destruct (Re.groups m) as [n b]. simpl.
  now destruct (fieldsOf style b).
Qed.


(** C6. In a revision that handles every class of the text, when two classes
    are found, A with at least one recognised field and B with none, in
    either order, the command makes exactly one edit, the one for A, and
    shows exactly one message, the one for B.  The edit is made of A alone
    (its range, its name, its fields, the suffix and the naming style) and
    the message of the name of B alone. *)
Theorem one_edit_one_error
  (v : Revision) (editor : Editor) (answer : option string)
  (style : NamingStyle) (A B : Re.Found (string * string)) :
  multiClass v = true ->
  recognised v style (snd (Re.groups A)) <> [] ->
  recognised v style (snd (Re.groups B)) = [] ->
  Re.matchAll re_class (classCodeOf editor) = [A; B]
  \/ Re.matchAll re_class (classCodeOf editor) = [B; A] ->
  dataClass v (host editor answer (Some style))
  = {| errors := [noFields (fst (Re.groups B))];
       edits := [classEdit v editor (suffixOf answer) style A] |}.
Proof.
  intros Hv HA HB Hms.
  unfold dataClass. cbn [activeTextEditor showQuickPick showInputBox host].
  destruct v; try discriminate; cbn [generate]; unfold generateAll.
  - destruct Hms as [-> | ->]; cbn [runClasses];
      rewrite !classStepLines_eq, HB;
      destruct (recognised V_lines style (snd (Re.groups A)));
      [contradiction | reflexivity | contradiction | reflexivity].
  - destruct Hms as [-> | ->]; cbn [runClasses];
      rewrite !classStepMulti_eq, HB;
      destruct (recognised V_multi style (snd (Re.groups A)));
      [contradiction | reflexivity | contradiction | reflexivity].
Qed.

Lemma one_edit_one_error_witness :
  multiClass V_lines = true
  /\ recognised V_lines original (snd (Re.groups class_A)) <> []
  /\ recognised V_lines original (snd (Re.groups class_B)) = []
  /\ Re.matchAll re_class (classCodeOf (document two_classes))
     = [class_A; class_B]
  /\ dataClass V_lines (host (document two_classes) (Some "DTO") (Some original))
     = {| errors := ["No valid fields found in class B."];
          edits := [classEdit V_lines (document two_classes) "DTO" original
                      class_A] |}.
Proof.
  assert (HA : recognised V_lines original (snd (Re.groups class_A)) <> [])
    by discriminate.
  assert (Hms : Re.matchAll re_class (classCodeOf (document two_classes))
                = [class_A; class_B]) by reflexivity.
  split; [reflexivity|]. split; [exact HA|]. split; [reflexivity|].
  split; [exact Hms|].
  exact (one_edit_one_error V_lines (document two_classes) (Some "DTO")
           original class_A class_B eq_refl HA eq_refl (or_introl Hms)).
Defined.

End Orchestrator.

(* ================================================================== *)
(** ** Further properties of the code *)
(* ================================================================== *)

Module MoreFacts.

Import Str StrFacts ReFacts.

#[local] Arguments Ascii.eqb : simpl never.

Lemma substring_none (n : nat) (s : string) : substring n 0 s = "".
Proof.
  revert s; induction n as [|n IH]; intros s; destruct s; simpl; auto.
Qed.


Lemma substring_prefix (a b : string) :
  substring 0 (String.length a) (a ++ b) = a.
Proof.
  induction a as [|c a IH]; simpl.
  - now destruct b.
  - now rewrite IH.
Qed.

Lemma substring_skip (pre s : string) (n : nat) :
  substring (String.length pre) n (pre ++ s) = substring 0 n s.
Proof. induction pre as [|c pre IH]; simpl; auto. Qed.


End MoreFacts.

Module Spans.

Import Str StrFacts ReFacts MoreFacts Gen Command Run Layout Samples.
Import MoreSamples.

#[local] Arguments Ascii.eqb : simpl never.

Lemma ascending_from (from from' limit : nat) (spans : list (nat * nat)) :
  from <= from' -> ascending from' limit spans -> ascending from limit spans.
Proof.
  destruct spans as [|[a b] r]; simpl; [auto|].
  intros H (H1 & H2 & H3 & H4). splits; auto. lia.
Qed.

(** The matches of a global scan follow one another in the text, when no
    match of the pattern is empty. *)
Lemma scan_ascending {G : Type} (m : string -> option (G * string)) :
  (forall s g r, m s = Some (g, r) -> String.length r < String.length s) ->
  forall s i skip,
    ascending (i + skip) (i + String.length s)
      (List.map span (Re.scan m i skip s)).
Proof.
  intros Hm. induction s as [|c t IH]; intros i skip.
  - destruct skip; simpl; [|exact I].
    destruct (m "") as [[g r]|] eqn:E; [|exact I].
    apply Hm in E. simpl in E. lia.
  - destruct skip as [|k]; cbn [Re.scan].
    + destruct (m (String c t)) as [[g r]|] eqn:E.
      * pose proof (Hm _ _ _ E) as Hl. simpl in Hl.
        cbn [List.map ascending span Re.index Re.len String.length].
        splits; try lia.
        apply (ascending_from _ (S i + (S (String.length t)
                                        - String.length r - 1))); [lia|].
        replace (i + S (String.length t)) with (S i + String.length t) by lia.
        apply IH.
      * apply (ascending_from _ (S i + 0)); [lia|].
        replace (i + String.length (String c t))
          with (S i + String.length t) by (simpl; lia).
        apply IH.
    + replace (i + S k) with (S i + k) by lia.
      replace (i + String.length (String c t))
        with (S i + String.length t) by (simpl; lia).
      apply IH.
Qed.

Lemma re_class_consumes (s : string) (g : string * string) (r : string) :
  re_class s = Some (g, r) -> String.length r < String.length s.
Proof.
  destruct g as [name body]. intros H.
  apply ClassLocator.re_class_sound in H as (ws & ws' & -> & _).
  rewrite !length_app. cbn [String.length]. lia.
Qed.

Lemma classes_ascending (text : string) :
  ascending 0 (String.length text) (List.map span (Re.matchAll re_class text)).
Proof. apply (scan_ascending re_class re_class_consumes text 0 0). Qed.

Lemma noSelection_classCode (editor : Editor) :
  noSelection editor = true -> classCodeOf editor = documentText editor.
Proof.
  unfold noSelection, classCodeOf, truthy. now intros ->.
Qed.

Lemma stepOf_eq v editor suffix style m :
  multiClass v = true ->
  stepOf v editor suffix style m
  = match recognised v style (snd (Re.groups m)) with
    | [] => inl (noFields (fst (Re.groups m)))
    | _ :: _ => inr (classEdit v editor suffix style m)
    end.
Proof.
  destruct v; try discriminate; intros _; cbn [stepOf].
  - apply Orchestrator.classStepLines_eq.
  - apply Orchestrator.classStepMulti_eq.
Qed.

Lemma generate_multi v editor suffix style :
  multiClass v = true ->
  generate v editor suffix style
  = finish (runClasses (stepOf v editor suffix style)
              (Re.matchAll re_class (classCodeOf editor))).
Proof. destruct v; try discriminate; reflexivity. Qed.

Lemma finish_edits (o : Outcome) : edits (finish o) = edits o.
Proof. unfold finish. now destruct (edits o) eqn:E. Qed.

Lemma run_ranges_ascending v editor suffix style ms :
  multiClass v = true ->
  forall from,
    ascending from (String.length (documentText editor)) (List.map span ms) ->
    ascending from (String.length (documentText editor))
      (List.map range (edits (runClasses (stepOf v editor suffix style) ms))).
Proof.
  intros Hv. induction ms as [|m ms IH]; intros from H; [exact I|].
  cbn [List.map ascending span] in H. destruct H as (H1 & H2 & H3 & H4).
  cbn [runClasses]. rewrite (stepOf_eq _ _ _ _ _ Hv).
  destruct (recognised v style (snd (Re.groups m))).
  - cbn [edits]. apply (ascending_from _ (Re.index m + Re.len m)); [lia|].
    now apply IH.
  - cbn [edits List.map ascending classEdit range matchRange].
    unfold positionAt. rewrite !Nat.min_l by lia.
    splits; auto.
Qed.

(** X4. In the revisions that handle every class of the text, with nothing
    selected, the ranges of the edits handed to the editor follow one another
    in the document: each is non-empty and inside the document, and each
    starts where the one before it ended or later, so no two overlap. *)
Theorem edit_ranges_ascending
  (v : Revision) (editor : Editor) (answer : option string)
  (style : NamingStyle) :
  multiClass v = true ->
  noSelection editor = true ->
  ascending 0 (String.length (documentText editor))
    (List.map range (edits (dataClass v (host editor answer (Some style))))).
Proof.
  intros Hv Hs.
  unfold dataClass. cbn [activeTextEditor showQuickPick showInputBox host].
  rewrite (generate_multi _ _ _ _ Hv), finish_edits.
  apply (run_ranges_ascending _ _ _ _ _ Hv).
  rewrite (noSelection_classCode _ Hs). apply classes_ascending.
Qed.

Lemma edit_ranges_ascending_witness :
  multiClass V_multi = true
  /\ noSelection (document two_classes) = true
  /\ List.map range
       (edits (dataClass V_multi
                 (host (document two_classes) (Some "DTO") (Some original))))
     = [(0, 26); (27, 47)]
  /\ ascending 0 (String.length (documentText (document two_classes)))
       (List.map range
          (edits (dataClass V_multi
                    (host (document two_classes) (Some "DTO")
                       (Some original))))).
Proof.
  split; [reflexivity|]. split; [reflexivity|]. split; [reflexivity|].
  exact (edit_ranges_ascending V_multi (document two_classes) (Some "DTO")
           original eq_refl eq_refl).
Defined.




End Spans.

Module Outcomes.

Import Str StrFacts ReFacts MoreFacts Gen Command Run Layout Samples.
Import MoreSamples.

#[local] Arguments Ascii.eqb : simpl never.

Lemma whole_document_replaced (editor : Editor) (text : string) :
  documentAfter editor
    {| errors := [];
       edits := [ {| range := wholeDocument editor; newText := text |} ] |}
  = text.
Proof.
  unfold documentAfter, applyEdits, replaceRange, wholeDocument, positionAt.
  cbn [edits List.fold_right range newText].
  rewrite Nat.min_0_l, Nat.min_id, Nat.sub_diag, !substring_none.
  apply app_nil_r.
Qed.

(** X6. The revisions that handle one class end in one of two ways: one
    error message and no edit, the document left as it was; or no message
    and one edit whose range is the whole document, so that the document
    becomes the generated text and nothing else of it is kept, whether the
    class came from a selection or from the whole text. *)
Theorem single_class_outcome (v : Revision) (h : Host) (editor : Editor) :
  multiClass v = false ->
  activeTextEditor h = Some editor ->
  (exists msg,
     dataClass v h = {| errors := [msg]; edits := [] |}
     /\ documentAfter editor (dataClass v h) = documentText editor)
  \/ (exists e,
        dataClass v h = {| errors := []; edits := [e] |}
        /\ range e = (0, String.length (documentText editor))
        /\ documentAfter editor (dataClass v h) = newText e).
Proof.
  intros Hv He. unfold dataClass. rewrite He.
  destruct (showQuickPick h) as [style|]; [|left; eexists; split; reflexivity].
  destruct v; try discriminate; cbn [generate].
  - unfold generateSingle.
    destruct (Re.search re_className (classCodeOf editor)) as [[i n]|];
      [|left; eexists; split; reflexivity].
    destruct (fieldsOf style (classCodeOf editor)) as [|f fs];
      [left; eexists; split; reflexivity|].
    right. eexists. split; [reflexivity|]. split.
    + cbn [range]. unfold wholeDocument, positionAt.
      now rewrite Nat.min_0_l, Nat.min_id.
    + apply whole_document_replaced.
  - unfold generateConstructorBased.
    destruct (Re.search re_className (classCodeOf editor)) as [[i n]|];
      [|left; eexists; split; reflexivity].
    destruct (Re.matchAll re_field (classCodeOf editor)) as [|f fs];
      [left; eexists; split; reflexivity|].
    right. eexists. split; [reflexivity|]. split.
    + cbn [range]. unfold wholeDocument, positionAt.
      now rewrite Nat.min_0_l, Nat.min_id.
    + apply whole_document_replaced.
Qed.

Lemma single_class_outcome_witness :
  multiClass V_constructor = false
  /\ activeTextEditor (host selected_editor (Some "DTO") (Some original))
     = Some selected_editor
  /\ ((exists msg,
         dataClass V_constructor
           (host selected_editor (Some "DTO") (Some original))
         = {| errors := [msg]; edits := [] |}
         /\ documentAfter selected_editor
              (dataClass V_constructor
                 (host selected_editor (Some "DTO") (Some original)))
            = documentText selected_editor)
      \/ (exists e,
            dataClass V_constructor
              (host selected_editor (Some "DTO") (Some original))
            = {| errors := []; edits := [e] |}
            /\ range e = (0, String.length (documentText selected_editor))
            /\ documentAfter selected_editor
                 (dataClass V_constructor
                    (host selected_editor (Some "DTO") (Some original)))
               = newText e)).
Proof.
  split; [reflexivity|]. split; [reflexivity|].
  exact (single_class_outcome V_constructor
           (host selected_editor (Some "DTO") (Some original))
           selected_editor eq_refl eq_refl).
Defined.

Lemma finish_told (o : Outcome) :
  edits (finish o) <> [] \/ errors (finish o) <> [].
Proof.
  unfold finish. destruct (edits o) eqn:E.
  - right. cbn [errors]. destruct (errors o); discriminate.
  - left. rewrite E. discriminate.
Qed.

(** X7. No run of the command ends silently, in any revision: when no edit
    is made, at least one error message is shown. *)
Theorem never_silent (v : Revision) (h : Host) :
  edits (dataClass v h) <> [] \/ errors (dataClass v h) <> [].
Proof.
  unfold dataClass.
  destruct (activeTextEditor h) as [editor|]; [|right; discriminate].
  destruct (showQuickPick h) as [style|]; [|right; discriminate].
  destruct v; cbn [generate].
  - unfold generateSingle.
    destruct (Re.search re_className (classCodeOf editor)) as [[i n]|];
      [|right; discriminate].
    destruct (fieldsOf style (classCodeOf editor));
      [right; discriminate | left; discriminate].
  - apply finish_told.
  - apply finish_told.
  - unfold generateConstructorBased.
    destruct (Re.search re_className (classCodeOf editor)) as [[i n]|];
      [|right; discriminate].
    destruct (Re.matchAll re_field (classCodeOf editor));
      [right; discriminate | left; discriminate].
Qed.

End Outcomes.

Module Tokens.

Import Str StrFacts ReFacts MoreFacts Gen FieldFacts Samples.

#[local] Arguments Ascii.eqb : simpl never.

Lemma rev_append_app (s acc : string) : rev_append s acc = rev s ++ acc.
Proof.
  unfold rev. revert acc; induction s as [|c s IH]; intros acc; simpl.
  - reflexivity.
  - rewrite (IH (String c "")), IH, app_assoc. reflexivity.
Qed.

Lemma rev_cons (c : ascii) (s : string) : rev (String c s) = rev s ++ String c "".
Proof. unfold rev at 1. simpl. apply rev_append_app. Qed.

Lemma rev_app (a b : string) : rev (a ++ b) = rev b ++ rev a.
Proof.
  induction a as [|c a IH]; simpl.
  - now rewrite app_nil_r.
  - now rewrite !rev_cons, IH, app_assoc.
Qed.

Lemma rev_involutive (s : string) : rev (rev s) = s.
Proof.
  induction s as [|c s IH]; [reflexivity|].
  now rewrite rev_cons, rev_app, IH.
Qed.

Lemma forallb_rev (p : ascii -> bool) (s : string) :
  forallb p (rev s) = forallb p s.
Proof.
  induction s as [|c s IH]; [reflexivity|].
  rewrite rev_cons, forallb_app, IH. simpl. rewrite andb_true_r.
  apply andb_comm.
Qed.

Lemma word_not_question (c : ascii) :
  Char.is_word c = true -> Ascii.eqb "?"%char c = false.
Proof. by_enumeration c. Qed.

Lemma words_no_question (w : string) :
  forallb Char.is_word w = true -> existsb (Ascii.eqb "?"%char) w = false.
Proof.
  induction w as [|c w IH]; simpl; intros H; [reflexivity|].
  apply andb_prop in H as [Hc Hw]. now rewrite (word_not_question _ Hc), IH.
Qed.

Lemma endsWith_marker (w : string) : endsWith (w ++ "?") "?" = true.
Proof. unfold endsWith. rewrite rev_app. reflexivity. Qed.

Lemma endsWith_word (w : string) :
  forallb Char.is_word w = true -> endsWith w "?" = false.
Proof.
  intros H. unfold endsWith, startsWith.
  rewrite <- forallb_rev in H. destruct (rev w) as [|c r]; [reflexivity|].
  simpl in H. apply andb_prop in H as [Hc _].
  change (rev "?") with "?". simpl. now rewrite (word_not_question _ Hc).
Qed.

Lemma find_first_char_end (c : ascii) (w : string) :
  existsb (Ascii.eqb c) w = false ->
  Replace.find_first (String c "") (w ++ String c "") = Some (w, "").
Proof.
  induction w as [|d w IH]; simpl; intros H.
  - now rewrite Ascii.eqb_refl.
  - apply orb_false_elim in H as [Hd Hw]. now rewrite Hd, (IH Hw).
Qed.

(** Removing the nullability marker gives back the word before it. *)
Lemma cleanType_marked (w : string) :
  forallb Char.is_word w = true -> cleanType (w ++ "?") = w.
Proof.
  intros H. unfold cleanType, Replace.replace.
  rewrite (find_first_char_end _ _ (words_no_question _ H)).
  simpl. now rewrite !app_nil_r.
Qed.

Lemma cleanType_plain (w : string) :
  forallb Char.is_word w = true -> cleanType w = w.
Proof.
  intros H. unfold cleanType, Replace.replace.
  now rewrite (find_first_none_char _ _ (words_no_question _ H)).
Qed.

(** The tokens of a declaration matched by the field pattern. *)
Lemma decl_tokens (s t n rest : string) :
  re_decl s = Some ((t, n), rest) ->
  exists base,
    base <> "" /\ forallb Char.is_word base = true
    /\ t = base ++ (if endsWith t "?" then "?" else "")
    /\ cleanType t = base
    /\ n <> "" /\ forallb Char.is_word n = true.
Proof.
  intros H. apply re_decl_sound in H as (w & q & -> & Hw & Hw' & Hq & Hn & Hn').
  exists w. destruct Hq as [-> | ->].
  - rewrite app_nil_r, (endsWith_word _ Hw'), (cleanType_plain _ Hw'), app_nil_r.
    splits; auto.
  - rewrite endsWith_marker, (cleanType_marked _ Hw'). splits; auto.
Qed.

(** The fields of the second revision of part_001 come from matches of the
    declaration pattern too; the constructor changes their nullability
    only. *)
Lemma plain_decl (style : NamingStyle) (className code : string)
  (g : Plain.Field) :
  In g (Plain.fieldsOf style className code) ->
  exists s rest,
    (exists g', In g' (Plain.fieldsFromType style code)
                /\ Plain.type g = Plain.type g' /\ Plain.name g = Plain.name g'
                /\ Plain.nullable g' = endsWith (Plain.type g') "?")
    /\ re_decl s = Some ((Plain.type g, Plain.name g), rest).
Proof.
  intros Hg.
  assert (Hbase : forall g', In g' (Plain.fieldsFromType style code) ->
            Plain.nullable g' = endsWith (Plain.type g') "?"
            /\ exists s rest,
                 re_decl s = Some ((Plain.type g', Plain.name g'), rest)).
  { intros g' Hg'. unfold Plain.fieldsFromType in Hg'.
    apply in_map_iff in Hg' as (m & <- & Hm).
    apply matchAll_sound in Hm as (pre & s & rest & _ & _ & Hs & _).
    unfold Plain.mkField. destruct (Re.groups m) as [t n].
    cbn [Plain.type Plain.name Plain.nullable]. split; [reflexivity|].
    now exists s, rest. }
  assert (H : exists g', In g' (Plain.fieldsFromType style code)
                         /\ Plain.type g = Plain.type g'
                         /\ Plain.name g = Plain.name g').
  { unfold Plain.fieldsOf in Hg.
    destruct (Plain.constructorParams className code) as [params|];
      [|exists g; auto].
    destruct (truthy params); [|exists g; auto].
    apply in_map_iff in Hg as (g' & <- & Hg'). exists g'. auto. }
  destruct H as (g' & Hg' & Ht & Hn).
  destruct (Hbase _ Hg') as (Hnull & s & rest & Hs).
  exists s, rest. rewrite Ht, Hn. split; [|assumption].
  exists g'. auto.
Qed.

(** X8. Every field found in a text, in any revision, is made of plain
    tokens: its name is a non-empty run of word characters and its type is
    a non-empty run of word characters followed by at most one question
    mark, so that a declaration whose type has type arguments, a prefix or
    any punctuation is not found.  In the revisions that read directives
    the field is nullable exactly when the question mark is there, and
    removing the marker gives the run of word characters back. *)
Theorem field_tokens
  (style : NamingStyle) (code body className : string) :
  Forall (fun f =>
      exists base,
        base <> "" /\ forallb Char.is_word base = true
        /\ type f = base ++ (if nullable f then "?" else "")
        /\ cleanType (type f) = base
        /\ name f <> "" /\ forallb Char.is_word (name f) = true)
    (fieldsOf style code ++ fieldsOfLines style body)
  /\ Forall (fun g =>
      exists base,
        base <> "" /\ forallb Char.is_word base = true
        /\ (Plain.type g = base \/ Plain.type g = base ++ "?")
        /\ Plain.name g <> "" /\ forallb Char.is_word (Plain.name g) = true)
    (Plain.fieldsOf style className code).
Proof.
  split; apply Forall_forall.
  - intros f Hf. apply in_app_or in Hf as [Hf|Hf].
    + apply fieldsOf_sound in Hf as (s & rest & Hd & _ & Hnull & _).
      rewrite Hnull. now apply decl_tokens in Hd.
    + apply fieldsOfLines_sound in Hf as (prev & line & Hl).
      apply lineField_sound in Hl as ((s & rest & Hd) & _ & Hnull & _).
      rewrite Hnull. now apply decl_tokens in Hd.
  - intros g Hg.
    apply plain_decl in Hg as (s & rest & _ & Hs).
    apply re_decl_sound in Hs as (w & q & Ht & Hw & Hw' & Hq & Hn & Hn').
    exists w. rewrite Ht. splits; auto.
    destruct Hq as [-> | ->]; [left; apply app_nil_r | now right].
Qed.

End Tokens.

Module Greedy.

Import Str StrFacts ReFacts MoreFacts.

#[local] Arguments Ascii.eqb : simpl never.

Section Order.
Context {A : Type}.
Implicit Types (k : @Re.K A) (p : ascii -> bool) (s : string).

(** When a greedy repetition fails, its continuation fails at every split
    of the text after a prefix in the class. *)
Lemma star_none p k s :
  Re.star p k s = None ->
  forall m r, s = m ++ r -> forallb p m = true -> k m r = None.
Proof.
  revert k; induction s as [|c s IH]; intros k H m r E Hm; simpl in H.
  - destruct m; [|discriminate]. simpl in E. now subst r.
  - destruct (p c) eqn:Hc.
    + destruct (Re.star p (fun m rest => k (String c m) rest) s) eqn:Hs;
        [discriminate|].
      destruct m as [|d m]; simpl in E; [now subst r|].
      inversion E; subst d s. simpl in Hm. apply andb_prop in Hm as [_ Hm].
      apply (IH _ Hs m r eq_refl Hm).
    + destruct m as [|d m]; simpl in E; [now subst r|].
      inversion E; subst d. simpl in Hm. rewrite Hc in Hm. discriminate.
Qed.

(** A greedy repetition hands over the longest prefix in the class that its
    continuation accepts. *)
Lemma star_greedy p k s x :
  Re.star p k s = Some x ->
  exists m r, s = m ++ r /\ forallb p m = true /\ k m r = Some x /\
    forall e r', r = e ++ r' -> e <> "" -> forallb p e = true ->
                 k (m ++ e) r' = None.
Proof.
  revert k; induction s as [|c s IH]; intros k H; simpl in H.
  - exists "", "". splits; auto.
    intros e r' E He. destruct e; [congruence | discriminate].
  - destruct (p c) eqn:Hc.
    + destruct (Re.star p (fun m rest => k (String c m) rest) s) as [y|] eqn:Hs.
      * inversion H; subst y.
        destruct (IH _ Hs) as (m & r & -> & Hm & Hk & Hmax).
        exists (String c m), r. simpl. rewrite Hc, Hm. splits; auto.
      * exists "", (String c s). splits; auto.
        intros e r' E He Hp. destruct e as [|d e]; [congruence|].
        simpl in E. inversion E; subst d s. simpl in Hp.
        apply andb_prop in Hp as [_ Hp]. simpl.
        apply (star_none _ _ _ Hs e r' eq_refl Hp).
    + exists "", (String c s). splits; auto.
      intros e r' E He Hp. destruct e as [|d e]; [congruence|].
      simpl in E. inversion E; subst d. simpl in Hp. rewrite Hc in Hp.
      discriminate.
Qed.

Lemma plus_greedy p k s x :
  Re.plus p k s = Some x ->
  exists m r, s = m ++ r /\ m <> "" /\ forallb p m = true /\ k m r = Some x /\
    forall e r', r = e ++ r' -> e <> "" -> forallb p e = true ->
                 k (m ++ e) r' = None.
Proof.
  unfold Re.plus. destruct s as [|c s]; [discriminate|].
  destruct (p c) eqn:Hc; [|discriminate]. intros H.
  destruct (star_greedy _ _ _ _ H) as (m & r & -> & Hm & Hk & Hmax).
  exists (String c m), r. simpl. rewrite Hc, Hm. splits; auto. discriminate.
Qed.

(** A repetition whose continuation always succeeds succeeds. *)
Lemma star_total p k s :
  (forall m r, k m r <> None) -> Re.star p k s <> None.
Proof.
  revert k; induction s as [|c s IH]; intros k Hk; simpl.
  - apply Hk.
  - destruct (p c); [|apply Hk].
    destruct (Re.star p (fun m rest => k (String c m) rest) s) eqn:E;
      [discriminate|].
    exfalso. apply (IH (fun m rest => k (String c m) rest)); auto.
Qed.

(** The first match of a search: the pattern matches at no earlier
    position. *)
Lemma search_from_first (m : string -> option A) i s j x :
  Re.search_from m i s = Some (j, x) ->
  exists pre rest,
    s = pre ++ rest /\ j = i + String.length pre /\ m rest = Some x /\
    forall a1 a2, pre = a1 ++ a2 -> a2 <> "" -> m (a2 ++ rest) = None.
Proof.
  revert i; induction s as [|c s IH]; intros i H; simpl in H.
  - destruct (m "") as [y|] eqn:Hm; [|discriminate].
    inversion H; subst. exists "", "". simpl. splits; auto.
    intros a1 a2 E. destruct a1; destruct a2; try discriminate. congruence.
  - destruct (m (String c s)) as [y|] eqn:Hm.
    + inversion H; subst. exists "", (String c s). simpl. splits; auto.
      intros a1 a2 E. destruct a1; destruct a2; try discriminate. congruence.
    + destruct (IH _ H) as (pre & rest & -> & -> & Hr & Hfirst).
      exists (String c pre), rest. simpl. splits; auto; try lia.
      intros a1 a2 E Ha2. destruct a1 as [|d a1]; simpl in E.
      * subst a2. simpl. exact Hm.
      * inversion E; subst d. now apply (Hfirst a1 a2).
Qed.

End Order.

End Greedy.

Module Trim.

Import Str StrFacts ReFacts MoreFacts Tokens Shape.

#[local] Arguments Ascii.eqb : simpl never.

Lemma dropWhile_split (p : ascii -> bool) (s : string) :
  exists l, s = l ++ dropWhile p s /\ forallb p l = true
            /\ headIs p (dropWhile p s) = false.
Proof.
  unfold dropWhile. destruct (span p s) as [a b] eqn:E.
  apply span_sound in E as (-> & Ha & Hb). exists a. simpl. splits; auto.
  destruct b; simpl; auto.
Qed.

Lemma trimEnd_split (s : string) :
  exists r, s = trimEnd s ++ r /\ forallb Char.is_space r = true
            /\ headIs Char.is_space (rev (trimEnd s)) = false.
Proof.
  unfold trimEnd.
  destruct (dropWhile_split Char.is_space (rev s)) as (l & E & Hl & Hh).
  exists (rev l). splits.
  - rewrite <- rev_app, <- E. symmetry. apply rev_involutive.
  - now rewrite forallb_rev.
  - now rewrite rev_involutive.
Qed.

(** [trim] removes blanks at both ends and nothing else. *)
Lemma trim_split (s : string) :
  exists l r, s = l ++ trim s ++ r
              /\ forallb Char.is_space l = true
              /\ forallb Char.is_space r = true.
Proof.
  unfold trim, trimStart.
  destruct (dropWhile_split Char.is_space s) as (l & E & Hl & _).
  destruct (trimEnd_split (dropWhile Char.is_space s)) as (r & E' & Hr & _).
  exists l, r. splits; auto. now rewrite <- E', <- E.
Qed.

Lemma trim_trimmed (s : string) : trimmed (trim s) = true.
Proof.
  unfold trimmed, trim, trimStart.
  destruct (dropWhile_split Char.is_space s) as (l & _ & _ & Hh).
  destruct (trimEnd_split (dropWhile Char.is_space s)) as (r & E' & _ & Hh').
  rewrite Hh', andb_true_r. apply negb_true_iff.
  destruct (trimEnd (dropWhile Char.is_space s)) as [|c t] eqn:Et;
    [reflexivity|].
  rewrite E' in Hh. exact Hh.
Qed.

Lemma trim_forallb (p : ascii -> bool) (s : string) :
  forallb p s = true -> forallb p (trim s) = true.
Proof.
  destruct (trim_split s) as (l & r & E & _). intros H. rewrite E in H.
  rewrite !forallb_app in H.
  now apply andb_prop in H as [_ [H _]%andb_prop].
Qed.

Lemma trim_existsb (p : ascii -> bool) (s : string) :
  existsb p s = false -> existsb p (trim s) = false.
Proof.
  destruct (trim_split s) as (l & r & E & _). intros H. rewrite E in H.
  rewrite !existsb_app in H.
  now apply orb_false_elim in H as [_ [H _]%orb_false_elim].
Qed.

End Trim.

Module Directives.

Import Str StrFacts ReFacts MoreFacts Greedy Trim Gen FieldFacts Shape Samples.

#[local] Arguments Ascii.eqb : simpl never.

Lemma existsb_split (p : ascii -> bool) (s : string) :
  existsb p s = true ->
  exists x c y, s = x ++ String c y /\ p c = true.
Proof.
  induction s as [|d s IH]; simpl; intros H; [discriminate|].
  destruct (p d) eqn:Hd.
  - exists "", d, s. auto.
  - destruct (IH H) as (x & c & y & -> & Hc). exists (String d x), c, y. auto.
Qed.

Lemma comma_is_dot : Char.is_dot ","%char = true.
Proof. reflexivity. Qed.

(** On a single line the second group of the parsing pattern holds no
    comma: the first group runs up to the last comma of the line. *)
Lemma re_parsing_last_comma (line : string) (i : nat) (a b : string) :
  Re.search re_parsing line = Some (i, (a, b)) ->
  forallb Char.is_dot line = true ->
  no_comma b = true.
Proof.
  intros H Hline.
  apply search_sound in H as (pre & rest & -> & _ & H).
  rewrite forallb_app in Hline. apply andb_prop in Hline as [_ Hline].
  unfold re_parsing in H.
  apply lit_sound in H as (r1 & -> & H).
  apply star_sound in H as (w1 & r2 & -> & _ & H).
  apply star_greedy in H as (g1 & r3 & -> & _ & H & Hmax).
  apply lit_sound in H as (r4 & -> & H).
  apply star_sound in H as (w2 & r5 & -> & _ & H).
  apply star_sound in H as (g2 & r6 & -> & _ & H).
  inversion H; subst a b; clear H.
  unfold no_comma. apply negb_true_iff.
  destruct (existsb (Ascii.eqb ","%char) g2) eqn:Hc; [exfalso|reflexivity].
  apply existsb_split in Hc as (x & c & y & -> & Hc).
  apply Ascii.eqb_eq in Hc. subst c.
  rewrite !forallb_app in Hline.
  apply andb_prop in Hline as [_ Hline].
  apply andb_prop in Hline as [_ Hline].
  apply andb_prop in Hline as [_ Hline].
  apply andb_prop in Hline as [_ Hline].
  apply andb_prop in Hline as [Hw2 Hline].
  apply andb_prop in Hline as [Hline _].
  apply andb_prop in Hline as [Hx _].
  specialize (Hmax ("," ++ w2 ++ x) ("," ++ y ++ r6)).
  assert (E : "," ++ w2 ++ (x ++ String ","%char y) ++ r6
              = ("," ++ w2 ++ x) ++ "," ++ y ++ r6).
  { cbn [append]. f_equal. rewrite !app_assoc. reflexivity. }
  specialize (Hmax E ltac:(discriminate)).
  assert (Hd : forallb Char.is_dot ("," ++ w2 ++ x) = true).
  { cbn [append forallb]. rewrite forallb_app, Hw2, Hx. reflexivity. }
  specialize (Hmax Hd).
  unfold Re.lit in Hmax. rewrite strip_prefix_app in Hmax.
  revert Hmax. apply star_total. intros m r. apply star_total.
  intros m' r'. discriminate.
Qed.

Lemma re_comment_dots (name s g : string) :
  re_comment name s = Some g -> forallb Char.is_dot g = true.
Proof.
  unfold re_comment. intros H.
  apply lit_sound in H as (r1 & -> & H).
  apply lit_sound in H as (r2 & -> & H).
  apply star_sound in H as (w1 & r3 & -> & _ & H).
  apply lit_sound in H as (r4 & -> & H).
  apply star_sound in H as (w2 & r5 & -> & _ & H).
  apply plus_sound in H as (c & m & r6 & -> & Hd & H).
  now inversion H; subst.
Qed.

(** What [determineFieldType] returns besides the flags: no custom parsing,
    or two trimmed expressions, the second without a comma, for a field that
    is not an enum. *)
Lemma determineFieldType_parsing (type name code : string) :
  let '(isEnum, _, customParsing) := determineFieldType type name code in
  customParsing = noParsing
  \/ (isEnum = false
      /\ exists a b,
           customParsing
           = {| fromJson := Some (trim a); toJson := Some (trim b) |}
           /\ no_comma b = true).
Proof.
  unfold determineFieldType.
  destruct (Re.search (re_comment name) code) as [[i g]|] eqn:Hs.
  - apply search_sound in Hs as (pre & rest & _ & _ & Hg).
    rewrite (FieldKinds.re_comment_one_line _ _ _ Hg).
    apply re_comment_dots in Hg. apply trim_forallb in Hg.
    cbn [List.map List.fold_left]. unfold readDirective.
    destruct (startsWith (trim g) "Type: enum").
    + destruct (has dartBuiltInTypes (cleanType type)); now left.
    + destruct (startsWith (trim g) "Parsing:").
      * destruct (Re.search re_parsing (trim g)) as [[j [a b]]|] eqn:Hp.
        -- pose proof (re_parsing_last_comma _ _ _ _ Hp Hg) as Hb.
           destruct (has dartBuiltInTypes (cleanType type));
             right; (split; [reflexivity|]); exists a, b; auto.
        -- destruct (has dartBuiltInTypes (cleanType type)); now left.
      * destruct (has dartBuiltInTypes (cleanType type)); now left.
  - destruct (has dartBuiltInTypes (cleanType type)); now left.
Qed.

Lemma lineField_parsing (style : NamingStyle) (prev : list string)
  (line : string) (f : Field) :
  lineField style prev line = Some f ->
  customParsing f = noParsing
  \/ exists a b,
       customParsing f
       = {| fromJson := Some (trim a); toJson := Some (trim b) |}.
Proof.
  unfold lineField. intros H.
  destruct (re_final_field (trim line)) as [[[t n] rest]|]; [|discriminate].
  inversion H; subst; clear H. cbn [customParsing].
  destruct (Re.search re_parsing (commentBlock prev)) as [[j [a b]]|];
    [right; now exists a, b | now left].
Qed.

Lemma no_comma_trim (b : string) : no_comma b = true -> no_comma (trim b) = true.
Proof.
  unfold no_comma. intros H%negb_true_iff.
  now rewrite (trim_existsb _ _ H).
Qed.

(** X9. The custom expressions of a field.  In every revision that reads
    directives a field has both expressions or none, and neither has a
    blank at either end.  Where the directive is read from the trailing
    comment (data.command.ts and the first revision of part_001) only one
    comment line is read: an enum field never has custom expressions, and the
    encoding expression never holds a comma, since the directive is split at
    the last comma of its line. *)
Theorem custom_expressions (style : NamingStyle) (code body : string) :
  Forall (fun f =>
      (isEnum f = true -> customParsing f = noParsing)
      /\ (forall e, toJson (customParsing f) = Some e -> no_comma e = true))
    (fieldsOf style code)
  /\ Forall (fun f =>
      (fromJson (customParsing f) = None <-> toJson (customParsing f) = None)
      /\ (forall e, fromJson (customParsing f) = Some e
                    \/ toJson (customParsing f) = Some e ->
                    trimmed e = true))
    (fieldsOf style code ++ fieldsOfLines style body).
Proof.
  assert (Hshape : forall cp,
            cp = noParsing
            \/ (exists a b, cp = {| fromJson := Some (trim a);
                                    toJson := Some (trim b) |}) ->
            (fromJson cp = None <-> toJson cp = None)
            /\ (forall e, fromJson cp = Some e \/ toJson cp = Some e ->
                          trimmed e = true)).
  { intros cp [-> | (a & b & ->)]; cbn [fromJson toJson noParsing]; split.
    - tauto.
    - intros e [H|H]; discriminate.
    - split; discriminate.
    - intros e [H|H]; inversion H; apply trim_trimmed. }
  split; apply Forall_forall; intros f Hf.
  - apply fieldsOf_sound in Hf as (s & rest & _ & _ & _ & Hd).
    pose proof (determineFieldType_parsing (type f) (name f) code) as H.
    rewrite <- Hd in H. destruct H as [-> | (He & a & b & -> & Hb)].
    + split; [reflexivity | discriminate].
    + rewrite He. split; [discriminate|].
      cbn [toJson]. intros e H. inversion H. now apply no_comma_trim.
  - apply Hshape. apply in_app_or in Hf as [Hf|Hf].
    + apply fieldsOf_sound in Hf as (s & rest & _ & _ & _ & Hd).
      pose proof (determineFieldType_parsing (type f) (name f) code) as H.
      rewrite <- Hd in H. destruct H as [-> | (_ & a & b & -> & _)];
        [now left | right; now exists a, b].
    + apply fieldsOfLines_sound in Hf as (prev & line & Hl).
      now apply lineField_parsing in Hl.
Qed.

(** A directive whose encoding expression holds a comma is cut at that
    comma. *)
Lemma custom_expressions_cut :
  List.map customParsing
    (fieldsOf original "class A {
  final Money price; // Parsing: Money.parse(value), Money.format(value, 2)
}")
  = [ {| fromJson := Some "Money.parse(value), Money.format(value";
         toJson := Some "2)" |} ].
Proof. reflexivity. Qed.

End Directives.

Module RoundTrip.

Import Str StrFacts MoreFacts Gen Humps.

#[local] Arguments Ascii.eqb : simpl never.

Lemma upper_lower_upper (c : ascii) :
  Char.is_upper c = true -> Char.to_upper (Char.to_lower c) = c.
Proof. by_enumeration c. Qed.

Lemma upper_lower_dot (c : ascii) :
  Char.is_upper c = true -> Char.is_dot (Char.to_lower c) = true.
Proof. by_enumeration c. Qed.

Lemma plain_to_lower (c : ascii) :
  Char.is_upper c = false -> Char.is_lower c || Char.is_digit c = true ->
  Char.to_lower c = c /\ Ascii.eqb c Char.underscore = false.
Proof. by_enumeration c; split; reflexivity. Qed.

Lemma lower_not_upper (c : ascii) :
  Char.is_lower c = true -> Char.is_upper c = false.
Proof. by_enumeration c. Qed.

Lemma separate_cons2 (sep a b : ascii) (r : string) :
  separate sep (String a (String b r))
  = if Char.is_lower a && Char.is_upper b
    then String a (String sep (String b (separate sep r)))
    else String a (separate sep (String b r)).
Proof. reflexivity. Qed.

(** From a name with humps to snake_case and back to camelCase. *)
Lemma camel_snake_camel (s : string) :
  humped s = true -> toCamelCase (toSnakeCase s) = s.
Proof.
  unfold humped, toSnakeCase, toLowerCase.
  assert (G : forall n s, String.length s <= n -> humps false s = true ->
               toCamelCase (Str.map Char.to_lower (separate Char.underscore s))
               = s).
  { clear s. induction n as [|n IH]; intros s Hn H.
    - destruct s; [reflexivity | simpl in Hn; lia].
    - destruct s as [|a r]; [reflexivity|].
      cbn [humps] in H. destruct (Char.is_upper a) eqn:Ha; [discriminate|].
      apply andb_prop in H as [Hplain H].
      destruct (plain_to_lower a Ha Hplain) as [Hla Hua].
      destruct r as [|b r'].
      + simpl. now rewrite Hla, Hua.
      + rewrite separate_cons2. cbn [humps] in H. simpl in Hn.
        destruct (Char.is_upper b) eqn:Hb.
        * apply andb_prop in H as [Hlow H]. rewrite Hlow. cbn [andb Str.map].
          rewrite Hla. cbn [toCamelCase]. rewrite Hua.
          change (Ascii.eqb Char.underscore Char.underscore) with true.
          cbn iota. rewrite (upper_lower_dot _ Hb), (upper_lower_upper _ Hb).
          rewrite IH; [reflexivity | lia | assumption].
        * rewrite andb_false_r. cbn [Str.map toCamelCase].
          rewrite Hla, Hua. f_equal.
          apply IH; [simpl; lia|].
          cbn [humps]. rewrite Hb. exact H. }
  apply (G (String.length s)). lia.
Qed.

(** X10. A camelCase name of letters and digits in which every upper-case
    letter comes right after a lower-case letter is given back by the
    camelCase converter from its snake_case form, so two different names of
    that shape never get the same snake_case key. *)
Theorem snake_keys_distinct (a b : string) :
  humped a = true -> humped b = true ->
  toCamelCase (convertCase snake_case a) = a
  /\ (convertCase snake_case a = convertCase snake_case b -> a = b).
Proof.
  intros Ha Hb. cbn [convertCase]. split.
  - now apply camel_snake_camel.
  - intros E. rewrite <- (camel_snake_camel a Ha), <- (camel_snake_camel b Hb).
    now rewrite E.
Qed.

Lemma snake_keys_distinct_witness :
  humped "userId" = true /\ humped "homeAddress2" = true
  /\ convertCase snake_case "userId" = "user_id"
  /\ toCamelCase (convertCase snake_case "userId") = "userId"
  /\ (convertCase snake_case "userId" = convertCase snake_case "homeAddress2"
      -> "userId" = "homeAddress2").
Proof.
  split; [reflexivity|]. split; [reflexivity|]. split; [reflexivity|].
  exact (snake_keys_distinct "userId" "homeAddress2" eq_refl eq_refl).
Defined.

End RoundTrip.

Module Keys.

Import Str StrFacts ReFacts MoreFacts Gen FieldFacts Shape.

#[local] Arguments Ascii.eqb : simpl never.

Lemma key_to_upper (c : ascii) :
  is_key_char c = true -> is_key_char (Char.to_upper c) = true.
Proof. by_enumeration c. Qed.

Lemma key_to_lower (c : ascii) :
  is_key_char c = true -> is_key_char (Char.to_lower c) = true.
Proof. by_enumeration c. Qed.

Lemma word_to_upper (c : ascii) :
  Char.is_word c = true -> Char.is_word (Char.to_upper c) = true.
Proof. by_enumeration c. Qed.

Lemma word_to_lower (c : ascii) :
  Char.is_word c = true -> Char.is_word (Char.to_lower c) = true.
Proof. by_enumeration c. Qed.

Lemma to_lower_not_upper (c : ascii) :
  negb (Char.is_upper (Char.to_lower c)) = true.
Proof. by_enumeration c. Qed.

Lemma word_is_key (c : ascii) : Char.is_word c = true -> is_key_char c = true.
Proof. unfold is_key_char. now intros ->. Qed.

Section Closed.
(** A class of characters closed under the two case mappings. *)
Variable q : ascii -> bool.
Hypothesis q_upper : forall c, q c = true -> q (Char.to_upper c) = true.
Hypothesis q_lower : forall c, q c = true -> q (Char.to_lower c) = true.

Lemma map_closed (f : ascii -> ascii) (s : string) :
  (forall c, q c = true -> q (f c) = true) ->
  forallb q s = true -> forallb q (Str.map f s) = true.
Proof.
  intros Hf. induction s as [|c s IH]; simpl; intros H; [reflexivity|].
  apply andb_prop in H as [Hc Hs]. now rewrite (Hf _ Hc), (IH Hs).
Qed.

Lemma toCamelCase_closed (s : string) :
  forallb q s = true -> forallb q (toCamelCase s) = true.
Proof.
  assert (G : forall n s, String.length s <= n ->
                forallb q s = true -> forallb q (toCamelCase s) = true).
  { clear s. induction n as [|n IH]; intros s Hn H.
    - destruct s; [reflexivity | simpl in Hn; lia].
    - destruct s as [|c r]; [reflexivity|].
      simpl in H. apply andb_prop in H as [Hc Hr]. simpl in Hn.
      cbn [toCamelCase]. destruct (Ascii.eqb c Char.underscore).
      + destruct r as [|d r']; [simpl; now rewrite Hc|].
        simpl in Hr. apply andb_prop in Hr as [Hd Hr']. simpl in Hn.
        destruct (Char.is_dot d); cbn [forallb].
        * rewrite (q_upper _ Hd). apply IH; [lia | assumption].
        * rewrite Hc. apply IH; [simpl; lia|]. simpl. now rewrite Hd.
      + cbn [forallb]. rewrite Hc. apply IH; [lia | assumption]. }
  now apply (G (String.length s)).
Qed.

Lemma separate_closed (sep : ascii) (s : string) :
  q sep = true -> forallb q s = true -> forallb q (separate sep s) = true.
Proof.
  intros Hsep.
  assert (G : forall n s, String.length s <= n ->
                forallb q s = true -> forallb q (separate sep s) = true).
  { clear s. induction n as [|n IH]; intros s Hn H.
    - destruct s; [reflexivity | simpl in Hn; lia].
    - destruct s as [|a r]; [reflexivity|].
      simpl in H. apply andb_prop in H as [Ha Hr]. simpl in Hn.
      destruct r as [|b r']; [simpl; now rewrite Ha|].
      rewrite RoundTrip.separate_cons2.
      destruct (Char.is_lower a && Char.is_upper b).
      + simpl in Hr. apply andb_prop in Hr as [Hb Hr']. simpl in Hn.
        cbn [forallb]. rewrite Ha, Hsep, Hb. apply IH; [lia | assumption].
      + cbn [forallb]. rewrite Ha. apply IH; [lia | assumption]. }
  now apply (G (String.length s)).
Qed.

Lemma pascalPiece_one_closed (a : ascii) :
  q a = true -> forallb q (pascalPiece (String a "")) = true.
Proof.
  intros Ha. unfold pascalPiece, Replace.replace. simpl.
  destruct (Ascii.eqb "_"%char a); simpl; [reflexivity|].
  now rewrite (q_upper _ Ha).
Qed.

Lemma pascalPiece_two_closed (b : ascii) :
  q b = true ->
  forallb q (pascalPiece (String Char.underscore (String b ""))) = true.
Proof.
  intros Hb. unfold pascalPiece, Replace.replace. simpl.
  now rewrite (q_upper _ Hb).
Qed.

Lemma toPascalRest_closed (s : string) :
  forallb q s = true -> forallb q (toPascalRest s) = true.
Proof.
  assert (G : forall n s, String.length s <= n ->
                forallb q s = true -> forallb q (toPascalRest s) = true).
  { clear s. induction n as [|n IH]; intros s Hn H.
    - destruct s; [reflexivity | simpl in Hn; lia].
    - destruct s as [|a r]; [reflexivity|].
      simpl in H. apply andb_prop in H as [Ha Hr]. simpl in Hn.
      cbn [toPascalRest].
      destruct (Ascii.eqb_spec a Char.underscore) as [->|_].
      + destruct r as [|b r']; [simpl; now rewrite Ha|].
        simpl in Hr. apply andb_prop in Hr as [Hb Hr']. simpl in Hn.
        destruct (Char.is_word b).
        * rewrite forallb_app, (pascalPiece_two_closed _ Hb).
          apply IH; [lia | assumption].
        * cbn [forallb]. rewrite Ha. apply IH; [simpl; lia|].
          simpl. now rewrite Hb.
      + cbn [forallb]. rewrite Ha. apply IH; [lia | assumption]. }
  now apply (G (String.length s)).
Qed.

Lemma convertCase_closed (style : NamingStyle) (s : string) :
  q Char.underscore = true ->
  (style = kebab_case -> q Char.hyphen = true) ->
  forallb q s = true -> forallb q (convertCase style s) = true.
Proof.
  intros Hu Hh H. destruct style; cbn [convertCase]; auto.
  - now apply toCamelCase_closed.
  - apply map_closed; [exact q_lower|]. now apply separate_closed.
  - unfold toPascalCase. destruct s as [|a r]; [reflexivity|].
    destruct (Char.is_word a); [|now apply toPascalRest_closed].
    simpl in H. apply andb_prop in H as [Ha Hr].
    now rewrite forallb_app, (pascalPiece_one_closed _ Ha), toPascalRest_closed.
  - apply map_closed; [exact q_lower|]. apply separate_closed; auto.
Qed.

End Closed.

Lemma toLowerCase_lower (s : string) :
  forallb (fun c => negb (Char.is_upper c)) (toLowerCase s) = true.
Proof.
  unfold toLowerCase. induction s as [|c s IH]; simpl; [reflexivity|].
  now rewrite to_lower_not_upper, IH.
Qed.

Lemma forallb_weaken (p q : ascii -> bool) (s : string) :
  (forall c, p c = true -> q c = true) ->
  forallb p s = true -> forallb q s = true.
Proof.
  intros Hpq. induction s as [|c s IH]; simpl; intros H; [reflexivity|].
  apply andb_prop in H as [Hc Hs]. now rewrite (Hpq _ Hc), (IH Hs).
Qed.

(** The key of a name made of word characters. *)
Lemma key_of_word (style : NamingStyle) (n : string) :
  forallb Char.is_word n = true ->
  forallb is_key_char (convertCase style n) = true
  /\ (style <> kebab_case -> forallb Char.is_word (convertCase style n) = true)
  /\ (style = snake_case \/ style = kebab_case ->
      forallb (fun c => negb (Char.is_upper c)) (convertCase style n) = true).
Proof.
  intros H. splits.
  - apply (convertCase_closed is_key_char key_to_upper key_to_lower);
      try reflexivity.
    revert H. apply forallb_weaken, word_is_key.
  - intros Hs.
    apply (convertCase_closed Char.is_word word_to_upper word_to_lower);
      try reflexivity; try assumption. intros E. contradiction.
  - intros [-> | ->]; apply toLowerCase_lower.
Qed.

(** X11. The key of every field found in a text is made of word characters,
    and of hyphens in the kebab-case style only: written between single
    quotes in the emitted text it holds no quote, backslash, dollar sign or
    blank.  In the snake_case and kebab-case styles it holds no upper-case
    letter. *)
Theorem key_characters (style : NamingStyle) (code body : string) :
  Forall (fun f =>
      forallb is_key_char (snakeName f) = true
      /\ (style <> kebab_case -> forallb Char.is_word (snakeName f) = true)
      /\ (style = snake_case \/ style = kebab_case ->
          forallb (fun c => negb (Char.is_upper c)) (snakeName f) = true))
    (fieldsOf style code ++ fieldsOfLines style body).
Proof.
  apply Forall_forall. intros f Hf.
  assert (H : snakeName f = convertCase style (name f)
              /\ forallb Char.is_word (name f) = true).
  { apply in_app_or in Hf as [Hf|Hf].
    - apply fieldsOf_sound in Hf as (s & rest & Hd & Hs & _).
      apply re_decl_sound in Hd as (_ & _ & _ & _ & _ & _ & _ & Hn). auto.
    - apply fieldsOfLines_sound in Hf as (prev & line & Hl).
      apply lineField_sound in Hl as ((s & rest & Hd) & Hs & _).
      apply re_decl_sound in Hd as (_ & _ & _ & _ & _ & _ & _ & Hn). auto. }
  destruct H as [-> Hn]. now apply key_of_word.
Qed.

End Keys.

Module Names.

Import Str StrFacts ReFacts MoreFacts Greedy Gen Command Run Shape Samples.

#[local] Arguments Ascii.eqb : simpl never.

(** X12. The class name the single-class revisions work with is the whole
    identifier that follows the first place of the text where the letters
    class, at least one blank and a word character stand: nothing of the
    identifier is left out, no such place comes earlier, and what stands
    before the letters (the rest of a longer word, a comment mark) is not
    looked at. *)
Theorem class_name_whole (code : string) (i : nat) (name : string) :
  Re.search re_className code = Some (i, name) ->
  exists pre ws rest,
    code = pre ++ "class" ++ ws ++ name ++ rest
    /\ i = String.length pre
    /\ ws <> "" /\ forallb Char.is_space ws = true
    /\ name <> "" /\ forallb Char.is_word name = true
    /\ headIs Char.is_word rest = false
    /\ forall a1 a2, pre = a1 ++ a2 -> a2 <> "" ->
         re_className (a2 ++ "class" ++ ws ++ name ++ rest) = None.
Proof.
  intros H. apply search_from_first in H as (pre & s & -> & -> & H & Hfirst).
  unfold re_className in H.
  apply lit_sound in H as (r1 & -> & H).
  apply plus_sound in H as (c1 & w & r2 & -> & Hws & H).
  apply plus_greedy in H as (n & r3 & -> & Hn & Hn' & H & Hmax).
  inversion H; subst n; clear H.
  exists pre, (String c1 w), r3. splits; auto; try discriminate.
  destruct r3 as [|c r3]; [reflexivity|]. simpl.
  destruct (Char.is_word c) eqn:Hc; [exfalso|reflexivity].
  specialize (Hmax (String c "") r3 eq_refl ltac:(discriminate)).
  simpl in Hmax. rewrite Hc in Hmax. specialize (Hmax eq_refl). discriminate.
Qed.

Lemma class_name_whole_witness :
  Re.search re_className "// subclass  UserProfile2<T> extends Base"
  = Some (6, "UserProfile2")
  /\ exists pre ws rest,
       "// subclass  UserProfile2<T> extends Base"
       = pre ++ "class" ++ ws ++ "UserProfile2" ++ rest
       /\ 6 = String.length pre
       /\ ws <> "" /\ forallb Char.is_space ws = true
       /\ "UserProfile2" <> "" /\ forallb Char.is_word "UserProfile2" = true
       /\ headIs Char.is_word rest = false
       /\ forall a1 a2, pre = a1 ++ a2 -> a2 <> "" ->
            re_className (a2 ++ "class" ++ ws ++ "UserProfile2" ++ rest) = None.
Proof.
  split; [reflexivity|].
  exact (class_name_whole "// subclass  UserProfile2<T> extends Base" 6
           "UserProfile2" eq_refl).
Defined.

End Names.

Module CommentBlocks.

Import Str StrFacts ReFacts MoreFacts Gen FieldFacts Samples.

#[local] Arguments Ascii.eqb : simpl never.





End CommentBlocks.

Module SameName.

Import Str StrFacts ReFacts MoreFacts Gen FieldFacts Directive Samples.
Import MoreSamples.

#[local] Arguments Ascii.eqb : simpl never.

Lemma determineFieldType_by_name (t1 t2 name code : string) :
  snd (determineFieldType t1 name code) = snd (determineFieldType t2 name code)
  /\ (has dartBuiltInTypes (cleanType t1) = has dartBuiltInTypes (cleanType t2)
      -> determineFieldType t1 name code = determineFieldType t2 name code).
Proof.
  unfold determineFieldType.
  destruct (match Re.search (re_comment name) code with
            | Some (_, g) =>
                List.fold_left readDirective (List.map trim (split_lines g))
                  (false, noParsing)
            | None => (false, noParsing)
            end) as [e cp].
  split.
  - destruct (has dartBuiltInTypes (cleanType t1));
      destruct (has dartBuiltInTypes (cleanType t2)); reflexivity.
  - now intros ->.
Qed.

(** X14. Where directives are read from the trailing comment, the directive
    of a field is looked up by the name of the field alone, at the first
    place of the scanned text where that name and a semicolon stand: two
    fields of the text with the same name (in two classes of a document,
    say) always get the same custom expressions, and the same flags when
    both types are built in or both are not. *)
Theorem same_name_same_directive
  (style : NamingStyle) (code : string) (f g : Field) :
  In f (fieldsOf style code) -> In g (fieldsOf style code) ->
  name f = name g ->
  customParsing f = customParsing g
  /\ (builtIn f = builtIn g -> isEnum f = isEnum g /\ isClass f = isClass g).
Proof.
  intros Hf Hg Hn.
  apply fieldsOf_sound in Hf as (_ & _ & _ & _ & _ & Hdf).
  apply fieldsOf_sound in Hg as (_ & _ & _ & _ & _ & Hdg).
  rewrite <- Hn in Hdg.
  destruct (determineFieldType_by_name (type f) (type g) (name f) code)
    as [Hcp Hall].
  rewrite <- Hdf, <- Hdg in Hcp. cbn [snd] in Hcp.
  split; [exact Hcp|].
  unfold builtIn. intros Hb. specialize (Hall Hb).
  rewrite <- Hdf, <- Hdg in Hall. inversion Hall. auto.
Qed.

Lemma same_name_same_directive_witness :
  fieldsOf original same_name_text = [id_field "Money"; id_field "Cash"]
  /\ name (id_field "Money") = name (id_field "Cash")
  /\ customParsing (id_field "Money") = customParsing (id_field "Cash")
  /\ (builtIn (id_field "Money") = builtIn (id_field "Cash") ->
      isEnum (id_field "Money") = isEnum (id_field "Cash")
      /\ isClass (id_field "Money") = isClass (id_field "Cash")).
Proof.
  split; [reflexivity|]. split; [reflexivity|].
  exact (same_name_same_directive original same_name_text
           (id_field "Money") (id_field "Cash")
           (or_introl eq_refl) (or_intror (or_introl eq_refl)) eq_refl).
Defined.

End SameName.

Module Selection.

Import Str StrFacts ReFacts MoreFacts Gen Command Run Layout Spans Samples.
Import MoreSamples.

#[local] Arguments Ascii.eqb : simpl never.

Lemma run_same_text v e1 e2 suffix style ms :
  multiClass v = true ->
  errors (runClasses (stepOf v e1 suffix style) ms)
  = errors (runClasses (stepOf v e2 suffix style) ms)
  /\ List.map newText (edits (runClasses (stepOf v e1 suffix style) ms))
     = List.map newText (edits (runClasses (stepOf v e2 suffix style) ms)).
Proof.
  intros Hv. induction ms as [|m ms [IHe IHd]]; [split; reflexivity|].
  cbn [runClasses]. rewrite !(stepOf_eq _ _ _ _ _ Hv).
  destruct (recognised v style (snd (Re.groups m))); cbn [errors edits List.map].
  - now rewrite IHe, IHd.
  - now rewrite IHe, IHd.
Qed.

Lemma finish_same_text (o1 o2 : Outcome) :
  errors o1 = errors o2 ->
  List.map newText (edits o1) = List.map newText (edits o2) ->
  errors (finish o1) = errors (finish o2)
  /\ List.map newText (edits (finish o1)) = List.map newText (edits (finish o2)).
Proof.
  intros He Hd. unfold finish.
  destruct (edits o1) as [|a r1] eqn:E1; destruct (edits o2) as [|b r2] eqn:E2;
    try discriminate.
  - cbn [errors edits]. now rewrite He.
  - rewrite E1, E2. auto.
Qed.

Lemma generate_same_text v e1 e2 suffix style :
  classCodeOf e1 = classCodeOf e2 ->
  errors (generate v e1 suffix style) = errors (generate v e2 suffix style)
  /\ List.map newText (edits (generate v e1 suffix style))
     = List.map newText (edits (generate v e2 suffix style)).
Proof.
  intros E. destruct v; cbn [generate].
  - unfold generateSingle. rewrite E.
    destruct (Re.search re_className (classCodeOf e2)) as [[i n]|];
      [|split; reflexivity].
    destruct (fieldsOf style (classCodeOf e2)); split; reflexivity.
  - unfold generateAll. rewrite E.
    apply finish_same_text;
      apply (run_same_text V_lines e1 e2 suffix style _ eq_refl).
  - unfold generateAll. rewrite E.
    apply finish_same_text;
      apply (run_same_text V_multi e1 e2 suffix style _ eq_refl).
  - unfold generateConstructorBased. rewrite E.
    destruct (Re.search re_className (classCodeOf e2)) as [[i n]|];
      [|split; reflexivity].
    destruct (Re.matchAll re_field (classCodeOf e2)); split; reflexivity.
Qed.

(** X15. When a text that is not blank is selected, nothing outside the
    selection is read, in any revision: two documents with the same
    selection get the same error messages and the same generated texts, in
    the same order (only the ranges of the edits depend on the document). *)
Theorem only_the_selection_is_read
  (v : Revision) (e1 e2 : Editor) (answer : option string)
  (style : option NamingStyle) :
  selectionText e1 = selectionText e2 ->
  noSelection e1 = false ->
  errors (dataClass v (host e1 answer style))
  = errors (dataClass v (host e2 answer style))
  /\ List.map newText (edits (dataClass v (host e1 answer style)))
     = List.map newText (edits (dataClass v (host e2 answer style))).
Proof.
  intros Hsel Hne.
  assert (E : classCodeOf e1 = classCodeOf e2).
  { unfold noSelection in Hne. unfold classCodeOf, truthy.
    rewrite <- Hsel, Hne. reflexivity. }
  unfold dataClass. cbn [activeTextEditor showQuickPick showInputBox host].
  destruct style as [st|]; [|split; reflexivity].
  now apply generate_same_text.
Qed.

Lemma only_the_selection_is_read_witness :
  selectionText selected_editor
  = selectionText {| selectionText := "class A { int x; }";
                     documentText := "" |}
  /\ noSelection selected_editor = false
  /\ errors (dataClass V_multi
               (host selected_editor (Some "DTO") (Some original)))
     = errors (dataClass V_multi
                 (host {| selectionText := "class A { int x; }";
                          documentText := "" |} (Some "DTO") (Some original)))
  /\ List.map newText
       (edits (dataClass V_multi
                 (host selected_editor (Some "DTO") (Some original))))
     = List.map newText
         (edits (dataClass V_multi
                   (host {| selectionText := "class A { int x; }";
                            documentText := "" |} (Some "DTO")
                      (Some original)))).
Proof.
  split; [reflexivity|]. split; [reflexivity|].
  exact (only_the_selection_is_read V_multi selected_editor
           {| selectionText := "class A { int x; }"; documentText := "" |}
           (Some "DTO") (Some original) eq_refl eq_refl).
Defined.

End Selection.

Module EmittedTypes.

Import Str StrFacts ReFacts MoreFacts Tokens Gen PlainTypes Samples.

#[local] Arguments Ascii.eqb : simpl never.

(** The two types, where the emitted text uses them. *)
Lemma castType_used (dtoClassName : string) (fields : list Plain.Field) :
  Plain.generateFactoryMethods dtoClassName fields
  = nl ++ "  factory " ++ dtoClassName ++ ".fromMap(Map<String, dynamic> map,"
    ++ nl ++ "   ) => " ++ dtoClassName ++ "(" ++ nl ++ "    "
    ++ join ""
         (List.map (fun f => Plain.name f ++ ": map['" ++ Plain.snakeName f
                             ++ "'] as " ++ castType f ++ ",") fields)
    ++ nl ++ "  );" ++ nl ++ nl
    ++ "  factory " ++ dtoClassName ++ ".fromJson(String source) =>" ++ nl
    ++ "      " ++ dtoClassName ++ ".fromMap(" ++ nl
    ++ "         json.decode(source) as Map<String, dynamic>," ++ nl
    ++ "      );" ++ nl ++ "   ".
Proof.
  unfold Plain.generateFactoryMethods.
  rewrite (List.map_ext
             (fun f => Plain.name f ++ ": map['" ++ Plain.snakeName f
                       ++ "'] as " ++ castType f ++ ",")
             (fun f => Plain.name f ++ ": map['" ++ Plain.snakeName f
                       ++ "'] as " ++ Replace.replace (Plain.type f) "?" ""
                       ++ (if Plain.nullable f then "?" else "") ++ ","));
    [reflexivity|].
  intros f. unfold castType. now rewrite !app_assoc.
Qed.

Lemma copyWithType_used (dtoClassName : string) (fields : list Plain.Field) :
  Plain.generateCopyWith dtoClassName fields
  = dtoClassName ++ " copyWith({" ++ nl ++ "    "
    ++ join (nl ++ "    ")
         (List.map (fun f => copyWithType f ++ " " ++ Plain.name f ++ ",")
            fields)
    ++ nl ++ "  }) => " ++ dtoClassName ++ "(" ++ nl ++ "    "
    ++ join (nl ++ "    ")
         (List.map (fun f => Plain.name f ++ ": " ++ Plain.name f
                             ++ " ?? this." ++ Plain.name f ++ ",") fields)
    ++ nl ++ "  );".
Proof. reflexivity. Qed.

(** X16. In the second revision of part_001 the parameter of [copyWith]
    for a field always has a nullable type, with one question mark whether
    the declared type had one or not; the type named after [as] in
    [fromMap] is the declared type without its marker, followed by a
    question mark exactly when the field is nullable.  In a text without a
    backspace character, where the constructor is not found, that type is
    the declared type as it was written. *)
Theorem emitted_types (style : NamingStyle) (className code : string) :
  Forall (fun g =>
      exists base,
        base <> "" /\ forallb Char.is_word base = true
        /\ copyWithType g = base ++ "?"
        /\ castType g = base ++ (if Plain.nullable g then "?" else ""))
    (Plain.fieldsOf style className code)
  /\ (existsb (Ascii.eqb Char.backspace) code = false ->
      Forall (fun g => castType g = Plain.type g)
        (Plain.fieldsOf style className code)).
Proof.
  split.
  - apply Forall_forall. intros g Hg.
    apply plain_decl in Hg as (s & rest & _ & Hs).
    apply decl_tokens in Hs as (base & Hb & Hb' & Ht & Hc & _).
    exists base. unfold copyWithType, castType.
    fold (cleanType (Plain.type g)). rewrite Hc. splits; auto.
    destruct (endsWith (Plain.type g) "?"); rewrite Ht at 1;
      [reflexivity | now rewrite app_nil_r].
  - intros Hbs. apply Forall_forall. intros g Hg.
    unfold Plain.fieldsOf in Hg.
    rewrite (Nullability.no_backspace_no_constructor _ _ Hbs) in Hg.
    assert (Hg2 : In g (Plain.fieldsOf style className code)).
    { unfold Plain.fieldsOf.
      now rewrite (Nullability.no_backspace_no_constructor _ _ Hbs). }
    apply plain_decl in Hg2 as (s & rest & _ & Hs).
    apply decl_tokens in Hs as (base & _ & _ & Ht & Hc & _).
    unfold Plain.fieldsFromType in Hg. apply in_map_iff in Hg as (m & Hm & _).
    assert (Hn : Plain.nullable g = endsWith (Plain.type g) "?").
    { rewrite <- Hm. unfold Plain.mkField. now destruct (Re.groups m). }
    unfold castType. fold (cleanType (Plain.type g)). now rewrite Hc, Hn.
Qed.

End EmittedTypes.

Module Order.

Import Str StrFacts ReFacts MoreFacts Gen FieldFacts Layout Spans Samples.

#[local] Arguments Ascii.eqb : simpl never.

(** The text of a match of the declaration pattern. *)
Lemma re_decl_text (s t n rest : string) :
  re_decl s = Some ((t, n), rest) ->
  exists ws,
    s = (t ++ ws ++ n ++ ";") ++ rest
    /\ ws <> "" /\ forallb Char.is_space ws = true.
Proof.
  unfold re_decl. intros H.
  apply plus_sound in H as (c1 & w & r1 & -> & _ & H).
  apply opt_sound in H as (q & r2 & -> & _ & H).
  apply plus_sound in H as (c2 & ws & r3 & -> & Hws & H).
  apply plus_sound in H as (c3 & nm & r4 & -> & _ & H).
  apply lit_sound in H as (r5 & -> & H).
  inversion H; subst; clear H.
  exists (String c2 ws). splits; auto; [|discriminate].
  repeat (progress (cbn [append]; rewrite ?app_assoc)). reflexivity.
Qed.

Lemma re_field_consumes (s : string) (g : string * string) (r : string) :
  re_field s = Some (g, r) -> String.length r < String.length s.
Proof.
  destruct g as [t n]. intros H.
  apply re_decl_text in H as (ws & -> & _).
  rewrite !length_app. cbn [String.length]. lia.
Qed.

Lemma fieldsOf_groups (style : NamingStyle) (code : string) :
  List.map (fun f => (type f, name f)) (fieldsOf style code)
  = List.map Re.groups (Re.matchAll re_field code).
Proof.
  unfold fieldsOf. rewrite List.map_map. apply List.map_ext.
  intros m. unfold mkField. destruct (Re.groups m) as [t n].
  now destruct (determineFieldType t n code) as [[e c] cp].
Qed.

(** X17. The fields of the revisions that scan the text with the field
    pattern come in the order of their declarations: each field is read
    from its own stretch of the text, made of its type, blanks, its name and
    a semicolon, and the stretches follow one another without overlap.  So
    the order of the fields in the emitted constructor, maps and toString is
    the order of the declarations in the text. *)
Theorem fields_in_text_order (style : NamingStyle) (code : string) :
  exists ms,
    List.map (fun f => (type f, name f)) (fieldsOf style code)
    = List.map Re.groups ms
    /\ List.map (fun f => (Plain.type f, Plain.name f))
         (Plain.fieldsFromType style code)
       = List.map Re.groups ms
    /\ ascending 0 (String.length code) (List.map span ms)
    /\ Forall (fun m =>
         exists ws,
           slice code (span m)
           = fst (Re.groups m) ++ ws ++ snd (Re.groups m) ++ ";"
           /\ ws <> "" /\ forallb Char.is_space ws = true) ms.
Proof.
  exists (Re.matchAll re_field code). splits.
  - apply fieldsOf_groups.
  - unfold Plain.fieldsFromType. rewrite List.map_map. apply List.map_ext.
    intros m. unfold Plain.mkField. now destruct (Re.groups m).
  - apply (scan_ascending re_field re_field_consumes code 0 0).
  - apply Forall_forall. intros m Hm.
    apply matchAll_sound in Hm as (pre & s & left & -> & Hi & Hs & Hl).
    destruct (Re.groups m) as [t n]. cbn [fst snd].
    apply re_decl_text in Hs as (ws & -> & Hws & Hws').
    exists ws. splits; auto.
    unfold slice, span. cbn [fst snd]. rewrite Hi, Hl, length_app.
    replace (String.length pre
             + (String.length (t ++ ws ++ n ++ ";") + String.length left
                - String.length left) - String.length pre)
      with (String.length (t ++ ws ++ n ++ ";")) by lia.
    now rewrite substring_skip, substring_prefix.
Qed.

End Order.

Module NoFields.

Import Str StrFacts ReFacts MoreFacts Tokens Trim Gen FieldFacts Command Run.
Import Layout Spans Order Samples MoreSamples Untouched.

#[local] Arguments Ascii.eqb : simpl never.

Lemma strip_prefix_more (p s r b : string) :
  strip_prefix p s = Some r -> strip_prefix p (s ++ b) = Some (r ++ b).
Proof.
  intros H. apply strip_prefix_sound in H. subst s.
  rewrite app_assoc. apply strip_prefix_app.
Qed.

Lemma includes_unfold (s p : string) :
  includes s p
  = startsWith s p
    || match s with
       | EmptyString => false
       | String _ r => includes r p
       end.
Proof. destruct s; reflexivity. Qed.

Lemma includes_app_l (x b p : string) :
  includes x p = true -> includes (x ++ b) p = true.
Proof.
  induction x as [|c x IH]; intros H.
  - simpl in H. rewrite orb_false_r in H. unfold startsWith in H.
    destruct (strip_prefix p "") as [r|] eqn:E; [|discriminate].
    rewrite includes_unfold. unfold startsWith.
    now rewrite (strip_prefix_more _ _ _ b E).
  - rewrite includes_unfold in H. cbn [append]. rewrite includes_unfold.
    apply orb_true_iff in H as [H|H].
    + unfold startsWith in *.
      destruct (strip_prefix p (String c x)) as [r|] eqn:E; [|discriminate].
      change (String c (x ++ b)) with (String c x ++ b).
      now rewrite (strip_prefix_more _ _ _ b E).
    + now rewrite (IH H), orb_true_r.
Qed.

Lemma includes_app_r (a x p : string) :
  includes x p = true -> includes (a ++ x) p = true.
Proof.
  intros H. induction a as [|c a IH]; [exact H|].
  cbn [append]. rewrite includes_unfold. now rewrite IH, orb_true_r.
Qed.

(** A text that does not hold [p] has no part that holds it. *)
Lemma includes_part (a x b p : string) :
  includes (a ++ x ++ b) p = false -> includes x p = false.
Proof.
  intros H. destruct (includes x p) eqn:E; [|reflexivity].
  now rewrite (includes_app_r a _ p (includes_app_l x b p E)) in H.
Qed.

Lemma existsb_part (q : ascii -> bool) (a x b : string) :
  existsb q (a ++ x ++ b) = false -> existsb q x = false.
Proof.
  rewrite !existsb_app. intros H.
  now apply orb_false_elim in H as [_ [H _]%orb_false_elim].
Qed.

(** Every line of a text is a part of it. *)
Lemma split_lines_aux_part (s cur l : string) :
  In l (split_lines_aux cur s) -> exists a b, rev cur ++ s = a ++ l ++ b.
Proof.
  revert cur; induction s as [|c s IH]; intros cur H; simpl in H.
  - destruct H as [<-|[]]. exists "", "". now rewrite !app_nil_r.
  - destruct (Ascii.eqb c Char.lf).
    + destruct H as [<-|H].
      * now exists "", (String c s).
      * apply IH in H as (a & b & E). change (rev "") with "" in E.
        simpl in E. exists (rev cur ++ String c a), b.
        rewrite E, app_assoc. reflexivity.
    + apply IH in H as (a & b & E). exists a, b.
      rewrite <- E, rev_cons, app_assoc. reflexivity.
Qed.

Lemma split_lines_part (s l : string) :
  In l (split_lines s) -> exists a b, s = a ++ l ++ b.
Proof. intros H. now apply split_lines_aux_part in H. Qed.

Lemma scanLines_nothing (style : NamingStyle) (lines prev : list string) :
  (forall l, In l lines -> re_final_field (trim l) = None) ->
  scanLines style prev lines = [].
Proof.
  revert prev; induction lines as [|l r IH]; intros prev H; [reflexivity|].
  cbn [scanLines]. unfold lineField.
  rewrite (H l (or_introl eq_refl)). apply IH.
  intros l' Hl'. apply H. now right.
Qed.

(** Without the word final in a class body, part_000 finds no field. *)
Lemma no_final_no_field (style : NamingStyle) (body : string) :
  includes body "final" = false -> fieldsOfLines style body = [].
Proof.
  intros H. unfold fieldsOfLines. apply scanLines_nothing.
  intros l Hl. apply split_lines_part in Hl as (a & b & ->).
  apply includes_part in H.
  destruct (trim_split l) as (sl & sr & E & _). rewrite E in H.
  apply includes_part in H.
  unfold re_final_field. apply lit_none.
  apply (Orchestrator.includes_false_suffix _ _ "" _ H eq_refl).
Qed.

(** Without a semicolon the field pattern matches nowhere. *)
Lemma no_semicolon_no_match (code : string) :
  existsb (Ascii.eqb ";"%char) code = false -> Re.matchAll re_field code = [].
Proof.
  intros H. unfold Re.matchAll. apply scan_none.
  intros pre rest ->.
  destruct (re_field rest) as [[[t n] left]|] eqn:E; [exfalso|reflexivity].
  apply re_decl_text in E as (ws & -> & _).
  rewrite !existsb_app in H. simpl in H.
  repeat (apply orb_false_elim in H as [? H]); try discriminate.
  repeat match goal with
         | X : _ || _ = false |- _ => apply orb_false_elim in X as [? ?]
         end; discriminate.
Qed.

Lemma re_decl_semicolon (s : string) g r :
  re_decl s = Some (g, r) -> existsb (Ascii.eqb ";"%char) s = true.
Proof.
  destruct g as [t n]. intros E.
  apply re_decl_text in E as (ws & -> & _).
  rewrite !existsb_app. simpl. now rewrite !orb_true_r.
Qed.

Lemma no_semicolon_no_line (style : NamingStyle) (body : string) :
  existsb (Ascii.eqb ";"%char) body = false -> fieldsOfLines style body = [].
Proof.
  intros H. unfold fieldsOfLines. apply scanLines_nothing.
  intros l Hl. apply split_lines_part in Hl as (a & b & ->).
  apply existsb_part in H.
  destruct (trim_split l) as (sl & sr & E & _). rewrite E in H.
  apply existsb_part in H.
  destruct (re_final_field (trim l)) as [[g r]|] eqn:F; [exfalso|reflexivity].
  unfold re_final_field in F.
  apply lit_sound in F as (r1 & F1 & F).
  apply plus_sound in F as (c & ws & r2 & -> & _ & F).
  apply re_decl_semicolon in F.
  rewrite F1, (existsb_app _ "final"), (existsb_app _ (String c ws)) in H.
  rewrite F, !orb_true_r in H. discriminate.
Qed.

(** The body of every class found is a part of the text. *)
Lemma class_body_part (code : string) (m : Re.Found (string * string)) :
  In m (Re.matchAll re_class code) ->
  exists a b, code = a ++ snd (Re.groups m) ++ b.
Proof.
  intros H. apply matchAll_sound in H as (pre & rest & left & -> & _ & H & _).
  destruct (Re.groups m) as [name body]. cbn [snd].
  apply ClassLocator.re_class_sound in H as (ws & ws' & -> & _).
  exists (pre ++ "class" ++ ws ++ name ++ ws' ++ "{"), ("}" ++ left).
  repeat (progress (cbn [append]; rewrite ?app_assoc)). reflexivity.
Qed.

Lemma run_all_errors (step : Re.Found (string * string) -> string + Edit)
  (ms : list (Re.Found (string * string))) :
  (forall m, In m ms -> step m = inl (noFields (fst (Re.groups m)))) ->
  runClasses step ms
  = {| errors := List.map noFields
                   (List.map (fun m => fst (Re.groups m)) ms);
       edits := [] |}.
Proof.
  induction ms as [|m ms IH]; intros H; [reflexivity|].
  cbn [runClasses List.map]. rewrite (H m (or_introl eq_refl)), IH.
  - reflexivity.
  - intros m' Hm'. apply H. now right.
Qed.

(** A revision that handles every class and recognises no field in any
    class body of the text only names the classes. *)
Lemma multi_nothing (v : Revision) (editor : Editor) (suffix : string)
  (style : NamingStyle) :
  multiClass v = true ->
  (forall m, In m (Re.matchAll re_class (classCodeOf editor)) ->
             recognised v style (snd (Re.groups m)) = []) ->
  generate v editor suffix style = nothingToUpdate v (classCodeOf editor).
Proof.
  intros Hv H. rewrite (generate_multi _ _ _ _ Hv).
  unfold nothingToUpdate. rewrite Hv. rewrite run_all_errors.
  - reflexivity.
  - intros m Hm. rewrite (stepOf_eq _ _ _ _ _ Hv). now rewrite (H m Hm).
Qed.

(** X18. A text without a semicolon is never changed, in any revision: no
    field is recognised in it, no edit is made, and the messages shown are
    those of a run that finds nothing to update. *)
Theorem no_semicolon_no_edit (v : Revision) (h : Host) (editor : Editor)
  (style : NamingStyle) :
  activeTextEditor h = Some editor ->
  showQuickPick h = Some style ->
  existsb (Ascii.eqb ";"%char) (classCodeOf editor) = false ->
  dataClass v h = nothingToUpdate v (classCodeOf editor)
  /\ documentAfter editor (dataClass v h) = documentText editor.
Proof.
  intros He Hs H.
  assert (E : dataClass v h = nothingToUpdate v (classCodeOf editor)).
  { unfold dataClass. rewrite He, Hs.
    destruct v; cbn [generate].
    - unfold generateSingle, nothingToUpdate, classFound. cbn [multiClass].
      destruct (Re.search re_className (classCodeOf editor)) as [[i n]|];
        [|reflexivity].
      unfold fieldsOf. now rewrite (no_semicolon_no_match _ H).
    - apply (multi_nothing V_lines); [reflexivity|].
      intros m Hm. apply class_body_part in Hm as (a & b & E).
      rewrite E in H. apply existsb_part in H.
      now apply no_semicolon_no_line.
    - apply (multi_nothing V_multi); [reflexivity|].
      intros m Hm. apply class_body_part in Hm as (a & b & E).
      rewrite E in H. apply existsb_part in H.
      cbn [recognised]. unfold fieldsOf.
      now rewrite (no_semicolon_no_match _ H).
    - unfold generateConstructorBased, nothingToUpdate, classFound.
      cbn [multiClass].
      destruct (Re.search re_className (classCodeOf editor)) as [[i n]|];
        [|reflexivity].
      now rewrite (no_semicolon_no_match _ H). }
  split; [exact E|]. rewrite E. unfold nothingToUpdate.
  now destruct (multiClass v).
Qed.

Lemma no_semicolon_no_edit_witness :
  activeTextEditor (host (document unfinished_class) None (Some original))
  = Some (document unfinished_class)
  /\ showQuickPick (host (document unfinished_class) None (Some original))
     = Some original
  /\ existsb (Ascii.eqb ";"%char) (classCodeOf (document unfinished_class))
     = false
  /\ dataClass V_lines
       (host (document unfinished_class) None (Some original))
     = nothingToUpdate V_lines (classCodeOf (document unfinished_class))
  /\ documentAfter (document unfinished_class)
       (dataClass V_lines
          (host (document unfinished_class) None (Some original)))
     = documentText (document unfinished_class).
Proof.
  split; [reflexivity|]. split; [reflexivity|]. split; [reflexivity|].
  exact (no_semicolon_no_edit V_lines
           (host (document unfinished_class) None (Some original))
           (document unfinished_class) original
           eq_refl eq_refl eq_refl).
Defined.

(** X19. The line-scanning revision recognises a field only in a line that
    starts with the word final: a text that does not hold this word is left
    as it is, each class found in it is named in a message of its own and
    the run ends with the message that there is nothing to update. *)
Theorem no_final_no_edit (h : Host) (editor : Editor) (style : NamingStyle) :
  activeTextEditor h = Some editor ->
  showQuickPick h = Some style ->
  includes (classCodeOf editor) "final" = false ->
  dataClass V_lines h
  = {| errors := List.map noFields (classNames (classCodeOf editor))
                 ++ ["No Dart class found to update."];
       edits := [] |}
  /\ documentAfter editor (dataClass V_lines h) = documentText editor.
Proof.
  intros He Hs H.
  assert (E : dataClass V_lines h
              = nothingToUpdate V_lines (classCodeOf editor)).
  { unfold dataClass. rewrite He, Hs.
    apply (multi_nothing V_lines); [reflexivity|].
    intros m Hm. apply class_body_part in Hm as (a & b & E).
    rewrite E in H. apply includes_part in H.
    now apply no_final_no_field. }
  rewrite E. split; reflexivity.
Qed.

Lemma no_final_no_edit_witness :
  activeTextEditor (host (document plain_class) None (Some original))
  = Some (document plain_class)
  /\ showQuickPick (host (document plain_class) None (Some original))
     = Some original
  /\ includes (classCodeOf (document plain_class)) "final" = false
  /\ dataClass V_lines (host (document plain_class) None (Some original))
     = {| errors := List.map noFields
                      (classNames (classCodeOf (document plain_class)))
                    ++ ["No Dart class found to update."];
          edits := [] |}
  /\ documentAfter (document plain_class)
       (dataClass V_lines (host (document plain_class) None (Some original)))
     = documentText (document plain_class).
Proof.
  split; [reflexivity|]. split; [reflexivity|]. split; [reflexivity|].
  exact (no_final_no_edit
           (host (document plain_class) None (Some original))
           (document plain_class) original eq_refl eq_refl eq_refl).
Defined.

End NoFields.
